(** * lenet.py: the LeNet-5 training script, embedded and verified

    The script is glue code around a tensor library.  The embedding keeps
    the script's own control flow (the three epoch routines, the accuracy
    metric, the training loop, the model's [forward]) and models the
    library calls it makes by their documented meaning:

    - Python values that can fail are results in [outcome];
    - the mutable objects the script passes around (the model's
      parameters and mode flag, the gradients, the optimizer, the global
      random generator, the console and the figures) live in one [state]
      record that every routine threads, also when it raises;
    - a [DataLoader] is its three constructor arguments; one traversal
      yields the collated batches of at most [batch_size] samples, in
      dataset order or in an order drawn from the generator;
    - the scalars of losses are an abstract type with the operations the
      script applies to them, in the order it applies them; the model
      of the script, LeNet5, is given over the real numbers;
    - [train], [validate] and [training_loop] return the model and the
      optimizer they were given, after mutating them: here they return
      the remaining component, and the objects are read in the state;
    - moving tensors to the device changes no value and is left out, and
      so are the gradient mode ([torch.no_grad()]), which only decides
      what automatic differentiation records, and the unused
      [best_loss]. *)

From Stdlib Require Import List ZArith QArith Qreduction Lia Bool Permutation.
From Stdlib Require Import Reals Lra.
Import ListNotations.
Open Scope Z_scope.

(** ** Python outcomes *)

Inductive exn : Type :=
| ZeroDivisionError
| AttributeError
| RuntimeError
| IndexError.

Inductive outcome (A : Type) : Type :=
| Ok (a : A)
| Raise (e : exn).
Arguments Ok {A} a.
Arguments Raise {A} e.

(** ** Module constants *)

Definition RANDOM_SEED : Z := 42.
Definition BATCH_SIZE : positive := 32%positive.
Definition N_EPOCHS : Z := 15.
Definition IMG_SIZE : nat := 32%nat.
Definition N_CLASSES : nat := 10%nat.

(** ** Integer helpers of the interpreter *)

(** [len(x)] and [t.size(0)] as Python integers. *)
Definition len {A} (l : list A) : Z := Z.of_nat (length l).

(** [range(n)]: empty when [n <= 0]. *)
Definition py_range (n : Z) : list Z := map Z.of_nat (seq 0 (Z.to_nat n)).

(** [a % b] on integers: floored, the sign of the divisor; raises on 0. *)
Definition py_mod (a b : Z) : outcome Z :=
  if b =? 0 then Raise ZeroDivisionError else Ok (a mod b).

(** ** The value of [correct_pred]

    It starts as the plain integer [0]; adding a 0-dim integer tensor to
    it gives a tensor, and only a tensor has [.float()]. *)

Inductive pyval : Type :=
| PyInt (z : Z)
| Tensor (z : Z).

Definition py_add (a b : pyval) : pyval :=
  match a, b with
  | PyInt x, PyInt y => PyInt (x + y)
  | PyInt x, Tensor y => Tensor (x + y)
  | Tensor x, PyInt y => Tensor (x + y)
  | Tensor x, Tensor y => Tensor (x + y)
  end.

Definition py_float (a : pyval) : outcome Z :=
  match a with
  | PyInt _ => Raise AttributeError
  | Tensor z => Ok z
  end.

(** The float tensor [c.float() / n].  Division of a tensor by zero does
    not raise: it gives nan or an infinity.  A finite quotient is kept as
    the rational in lowest terms. *)
Inductive fval : Type :=
| Fin (q : Q)
| NaN
| PInf
| NInf.

Definition tensor_div (c n : Z) : fval :=
  if n =? 0 then
    if c =? 0 then NaN else if 0 <? c then PInf else NInf
  else Fin (Qred (inject_Z c / inject_Z n)).

(** ** Tensor operations on labels *)

Fixpoint map2 {A B C} (f : A -> B -> C) (l : list A) (m : list B) : list C :=
  match l, m with
  | a :: l', b :: m' => f a b :: map2 f l' m'
  | _, _ => []
  end.

(** [a == b] on 1-d integer tensors, with broadcasting of a length-1
    operand; other length mismatches raise. *)
Definition tensor_eq (a b : list Z) : outcome (list bool) :=
  if (length a =? length b)%nat then Ok (map2 Z.eqb a b)
  else match a, b with
       | [x], _ => Ok (map (Z.eqb x) b)
       | _, [y] => Ok (map (fun x => Z.eqb x y) a)
       | _, _ => Raise RuntimeError
       end.

(** [t.sum()] of a boolean tensor. *)
Fixpoint tensor_sum (l : list bool) : Z :=
  match l with
  | [] => 0
  | b :: l' => (if b then 1 else 0) + tensor_sum l'
  end.

(** ** Batching *)

Section Batching.
Context {A : Type}.

(** The batch sampler: append to the current batch, yield it when it
    holds [bs] items, and yield a last shorter batch if one is left. *)
Fixpoint chunks_from (bs : nat) (cur : list A) (l : list A) : list (list A) :=
  match l with
  | [] => match cur with [] => [] | _ :: _ => [cur] end
  | x :: l' =>
      let cur' := cur ++ [x] in
      if (length cur' =? bs)%nat then cur' :: chunks_from bs [] l'
      else chunks_from bs cur' l'
  end.

Definition chunks (bs : positive) (l : list A) : list (list A) :=
  chunks_from (Pos.to_nat bs) [] l.

Definition insert_at (k : nat) (x : A) (l : list A) : list A :=
  firstn k l ++ x :: skipn k l.
End Batching.

(** ** The tensor library and the model, as the script sees them *)

Class Backend : Type := {
  (** Scalars (losses, logits, probabilities) and the operations the
      script applies to them. *)
  F : Type;
  F_of_Z : Z -> F;
  Fadd : F -> F -> F;
  Fmul : F -> F -> F;
  Fdiv : F -> F -> F;
  Fltb : F -> F -> bool;
  (** Inputs, parameters, gradients, optimizer state, generator state. *)
  image : Type;
  P : Type;
  Gr : Type;
  O : Type;
  G : Type;
  (** [model(X)]: from the mode flag, the parameters and a batch of
      inputs to [(logits, probs)]; a model may reject its input. *)
  forward : bool -> P -> list image -> outcome (list (list F) * list (list F));
  (** [criterion(y_hat, y_true).item()]; a loss function may reject its
      input, as [nn.CrossEntropyLoss] does a label that is no class. *)
  criterion : list (list F) -> list Z -> outcome F;
  (** What [loss.backward()] adds to the parameters' [.grad]. *)
  backward : bool -> P -> list image -> list Z -> Gr;
  grad_acc : Gr -> Gr -> Gr;
  (** [optimizer.step()] on parameters that have a gradient. *)
  opt_step : O -> P -> Gr -> P * O;
  (** A draw below a bound from the generator. *)
  next_rand : G -> nat -> nat * G;
  (** A 64-bit draw from the generator, as taken for a seed. *)
  draw_seed : G -> Z * G;
  (** [torch.manual_seed(seed)]: the generator a seed gives. *)
  manual_seed : Z -> G
}.

(** ** The script's routines *)

Section Script.
Context {B : Backend}.

(** What one call of [print] writes; the time of day in front of it and
    the rounding of the numbers are left out. *)
Record log_line : Type := {
  log_epoch : Z;
  log_train_loss : F;
  log_valid_loss : F;
  log_train_acc : fval;
  log_valid_acc : fval
}.

(** The objects the routines share.  [grads] is [None] after
    [zero_grad()], which resets the gradients to none. *)
Record state : Type := {
  params : P;
  grads : option Gr;
  training : bool;
  opt : O;
  rng : G;
  stdout : list log_line;
  figures : list (list F * list F)
}.

(** Computations: a state transformer whose result may be an exception;
    the state reached is kept in both cases. *)
Definition M (A : Type) : Type := state -> outcome A * state.

Definition ret {A} (a : A) : M A := fun st => (Ok a, st).

Definition bind {A C} (m : M A) (k : A -> M C) : M C :=
  fun st =>
    match m st with
    | (Ok a, st') => k a st'
    | (Raise e, st') => (Raise e, st')
    end.

Definition lift {A} (o : outcome A) : M A := fun st => (o, st).

Notation "x <- m ;; k" := (bind m (fun x => k))
  (at level 61, m at next level, right associativity).
Notation "m ;;; k" := (bind m (fun _ => k))
  (at level 61, right associativity).

(** A [for] loop that threads the loop-carried variables. *)
Fixpoint for_each {A C} (l : list A) (acc : C) (body : C -> A -> M C) : M C :=
  match l with
  | [] => ret acc
  | x :: l' => acc' <- body acc x ;; for_each l' acc' body
  end.

(** *** The objects' methods *)

Definition model_train : M unit := fun st =>
  (Ok tt, {| params := params st; grads := grads st; training := true;
             opt := opt st; rng := rng st; stdout := stdout st;
             figures := figures st |}).

Definition model_eval : M unit := fun st =>
  (Ok tt, {| params := params st; grads := grads st; training := false;
             opt := opt st; rng := rng st; stdout := stdout st;
             figures := figures st |}).

Definition model_call (x : list image) : M (list (list F) * list (list F)) :=
  fun st => (forward (training st) (params st) x, st).

Definition optimizer_zero_grad : M unit := fun st =>
  (Ok tt, {| params := params st; grads := None; training := training st;
             opt := opt st; rng := rng st; stdout := stdout st;
             figures := figures st |}).

Definition loss_backward (x : list image) (y : list Z) : M unit := fun st =>
  let g := backward (training st) (params st) x y in
  (Ok tt, {| params := params st;
             grads := Some (match grads st with
                            | None => g
                            | Some g0 => grad_acc g0 g
                            end);
             training := training st;
             opt := opt st; rng := rng st; stdout := stdout st;
             figures := figures st |}).

Definition optimizer_step : M unit := fun st =>
  match grads st with
  | None => (Ok tt, st)
  | Some g =>
      let (p', o') := opt_step (opt st) (params st) g in
      (Ok tt, {| params := p'; grads := grads st; training := training st;
                 opt := o'; rng := rng st; stdout := stdout st;
                 figures := figures st |})
  end.

Definition print (l : log_line) : M unit := fun st =>
  (Ok tt, {| params := params st; grads := grads st; training := training st;
             opt := opt st; rng := rng st; stdout := stdout st ++ [l];
             figures := figures st |}).

(** *** DataLoader *)

Record DataLoader : Type := {
  dataset : list (image * Z);
  batch_size : positive;
  shuffle : bool
}.

Record batch : Type := { X : list image; y_true : list Z }.

Definition collate (l : list (image * Z)) : batch :=
  {| X := map fst l; y_true := map snd l |}.

(** The random sampler: an order of the samples decided by the
    generator, each sample exactly once. *)
Fixpoint shuffled (l : list (image * Z)) (g : G) : list (image * Z) * G :=
  match l with
  | [] => ([], g)
  | x :: l' =>
      let (p, g1) := shuffled l' g in
      let (r, g2) := next_rand g1 (S (length p)) in
      (insert_at (r mod S (length p))%nat x p, g2)
  end.

(** The samples of one traversal, in the order they are served, and the
    global generator after it.  Creating the iterator draws a base seed
    from the global generator, whether the loader shuffles or not; a
    loader that shuffles draws one more seed, and its sampler orders the
    samples with a generator of its own made from that seed. *)
Definition sampled (ld : DataLoader) (g : G) : list (image * Z) * G :=
  let (base_seed, g1) := draw_seed g in
  if shuffle ld then
    let (seed, g2) := draw_seed g1 in
    (fst (shuffled (dataset ld) (manual_seed seed)), g2)
  else (dataset ld, g1).

Definition batches_of (ld : DataLoader) (g : G) : list batch :=
  map collate (chunks (batch_size ld) (fst (sampled ld g))).

(** [iter(data_loader)], all batches of the traversal. *)
Definition iter_loader (ld : DataLoader) : M (list batch) := fun st =>
  (Ok (batches_of ld (rng st)),
   {| params := params st; grads := grads st; training := training st;
      opt := opt st; rng := snd (sampled ld (rng st)); stdout := stdout st;
      figures := figures st |}).

(** *** torch.max(t, 1) *)

(** Value and index of the first maximal entry after [(best, bi)]. *)
Fixpoint max_from (best : F) (bi : Z) (i : Z) (row : list F) : F * Z :=
  match row with
  | [] => (best, bi)
  | x :: row' =>
      if Fltb best x then max_from x i (i + 1) row'
      else max_from best bi (i + 1) row'
  end.

Definition max_row (row : list F) : outcome (F * Z) :=
  match row with
  | [] => Raise IndexError
  | x :: row' => Ok (max_from x 0 1 row')
  end.

Fixpoint torch_max_dim1 (t : list (list F)) : outcome (list F * list Z) :=
  match t with
  | [] => Ok ([], [])
  | row :: t' =>
      match max_row row with
      | Raise e => Raise e
      | Ok (v, i) =>
          match torch_max_dim1 t' with
          | Raise e => Raise e
          | Ok (vs, ixs) => Ok (v :: vs, i :: ixs)
          end
      end
  end.

(** *** get_accuracy *)

(** The body of the loop of [get_accuracy]; the loop-carried variables
    are [correct_pred] and [n]. *)
Definition accuracy_body (acc : pyval * Z) (b : batch) : M (pyval * Z) :=
  let '(correct_pred, n) := acc in
  out <- model_call (X b) ;;
  let y_prob := snd out in
  mx <- lift (torch_max_dim1 y_prob) ;;
  let predicted_labels := snd mx in
  let n := n + len (y_true b) in
  eqs <- lift (tensor_eq predicted_labels (y_true b)) ;;
  let correct_pred := py_add correct_pred (Tensor (tensor_sum eqs)) in
  ret (correct_pred, n).

(** The loop of [get_accuracy]: the pair [(correct_pred, n)] after it. *)
Definition accuracy_counts (data_loader : DataLoader) : M (pyval * Z) :=
  model_eval ;;;
  bs <- iter_loader data_loader ;;
  for_each bs (PyInt 0, 0) accuracy_body.

Definition get_accuracy (data_loader : DataLoader) : M fval :=
  cn <- accuracy_counts data_loader ;;
  let '(correct_pred, n) := cn in
  c <- lift (py_float correct_pred) ;;
  ret (tensor_div c n).

(** *** train and validate *)

(** [x / n] for a float [x] and an integer [n]: raises on 0. *)
Definition py_truediv (x : F) (n : Z) : outcome F :=
  if n =? 0 then Raise ZeroDivisionError else Ok (Fdiv x (F_of_Z n)).

Definition train_body (running_loss : F) (b : batch) : M F :=
  optimizer_zero_grad ;;;
  out <- model_call (X b) ;;
  let y_hat := fst out in
  loss <- lift (criterion y_hat (y_true b)) ;;
  let running_loss := Fadd running_loss (Fmul loss (F_of_Z (len (X b)))) in
  loss_backward (X b) (y_true b) ;;;
  optimizer_step ;;;
  ret running_loss.

Definition train (train_loader : DataLoader) : M F :=
  model_train ;;;
  bs <- iter_loader train_loader ;;
  running_loss <- for_each bs (F_of_Z 0) train_body ;;
  lift (py_truediv running_loss (len (dataset train_loader))).

Definition validate_body (running_loss : F) (b : batch) : M F :=
  out <- model_call (X b) ;;
  let y_hat := fst out in
  loss <- lift (criterion y_hat (y_true b)) ;;
  let running_loss := Fadd running_loss (Fmul loss (F_of_Z (len (X b)))) in
  ret running_loss.

Definition validate (valid_loader : DataLoader) : M F :=
  model_eval ;;;
  bs <- iter_loader valid_loader ;;
  running_loss <- for_each bs (F_of_Z 0) validate_body ;;
  lift (py_truediv running_loss (len (dataset valid_loader))).

(** *** plot_losses and training_loop *)

Definition plot_losses (train_losses valid_losses : list F) : M unit := fun st =>
  (Ok tt, {| params := params st; grads := grads st; training := training st;
             opt := opt st; rng := rng st; stdout := stdout st;
             figures := figures st ++ [(train_losses, valid_losses)] |}).

(** The body of the loop over [range(epochs)]; the loop-carried
    variables are the two histories. *)
Definition epoch_body (train_loader valid_loader : DataLoader) (print_every : Z)
    (hist : list F * list F) (epoch : Z) : M (list F * list F) :=
  let '(train_losses, valid_losses) := hist in
  train_loss <- train train_loader ;;
  let train_losses := train_losses ++ [train_loss] in
  valid_loss <- validate valid_loader ;;
  let valid_losses := valid_losses ++ [valid_loss] in
  m <- lift (py_mod epoch print_every) ;;
  (if m =? print_every - 1 then
     train_acc <- get_accuracy train_loader ;;
     valid_acc <- get_accuracy valid_loader ;;
     print {| log_epoch := epoch; log_train_loss := train_loss;
              log_valid_loss := valid_loss; log_train_acc := train_acc;
              log_valid_acc := valid_acc |}
   else ret tt) ;;;
  ret (train_losses, valid_losses).

Definition training_loop (train_loader valid_loader : DataLoader)
    (epochs : Z) (print_every : Z) : M (list F * list F) :=
  hist <- for_each (py_range epochs) ([], [])
            (epoch_body train_loader valid_loader print_every) ;;
  let '(train_losses, valid_losses) := hist in
  plot_losses train_losses valid_losses ;;;
  ret (train_losses, valid_losses).

(** *** The notions the properties are stated with *)

(** The class [torch.max] picks in one row of probabilities. *)
Definition predicted_class (row : list F) : Z :=
  match row with
  | [] => 0
  | x :: row' => snd (max_from x 0 1 row')
  end.

Definition logits_of (mode : bool) (p : P) (b : batch) : list (list F) :=
  match forward mode p (X b) with
  | Ok (logits, _) => logits
  | Raise _ => []
  end.

Definition probs_of (mode : bool) (p : P) (b : batch) : list (list F) :=
  match forward mode p (X b) with
  | Ok (_, probs) => probs
  | Raise _ => []
  end.

(** Predicted labels of a batch, in inference mode. *)
Definition predictions (p : P) (b : batch) : list Z :=
  map predicted_class (probs_of false p b).

(** Number of samples of a batch whose predicted class is the label. *)
Definition hits (p : P) (b : batch) : nat :=
  length (filter (fun py => fst py =? snd py)
                 (combine (predictions p b) (y_true b))).

Definition correct_samples (p : P) (bs : list batch) : nat :=
  fold_right Nat.add 0%nat (map (hits p) bs).

Definition total_samples (bs : list batch) : nat :=
  fold_right Nat.add 0%nat (map (fun b => length (y_true b)) bs).

(** The fraction [c / n] as the float the metric returns. *)
Definition fraction (c n : nat) : fval :=
  Fin (Qred (inject_Z (Z.of_nat c) / inject_Z (Z.of_nat n))).

(** The model's contract on the batches a loader can serve: a batch of
    [N] inputs gives [N] rows of [N_CLASSES] logits and as many rows
    of probabilities. *)
Definition model_contract (ld : DataLoader) : Prop :=
  forall (mode : bool) (p : P) (xs : list image),
    incl xs (map fst (dataset ld)) ->
    exists logits probs,
      forward mode p xs = Ok (logits, probs) /\
      length logits = length xs /\
      length probs = length xs /\
      Forall (fun row => length row = N_CLASSES) logits /\
      Forall (fun row => length row = N_CLASSES) probs.

(** The metric read off the logits in place of the probabilities: the
    loop of [get_accuracy] with [torch.max] applied to the first
    component of the model's output.  The script does not have it; it is
    what [get_accuracy] is compared with. *)
Definition accuracy_body_logits (acc : pyval * Z) (b : batch) : M (pyval * Z) :=
  let '(correct_pred, n) := acc in
  out <- model_call (X b) ;;
  let y_hat := fst out in
  mx <- lift (torch_max_dim1 y_hat) ;;
  let predicted_labels := snd mx in
  let n := n + len (y_true b) in
  eqs <- lift (tensor_eq predicted_labels (y_true b)) ;;
  let correct_pred := py_add correct_pred (Tensor (tensor_sum eqs)) in
  ret (correct_pred, n).

Definition get_accuracy_logits (data_loader : DataLoader) : M fval :=
  cn <- (model_eval ;;;
         bs <- iter_loader data_loader ;;
         for_each bs (PyInt 0, 0) accuracy_body_logits) ;;
  let '(correct_pred, n) := cn in
  c <- lift (py_float correct_pred) ;;
  ret (tensor_div c n).

(** One training step on a batch: gradients cleared, gradient of the
    batch's loss computed, one optimizer step taken. *)
Definition sgd_step (st : state) (b : batch) : state :=
  let g := backward (training st) (params st) (X b) (y_true b) in
  let (p', o') := opt_step (opt st) (params st) g in
  {| params := p'; grads := Some g; training := training st;
     opt := o'; rng := rng st; stdout := stdout st;
     figures := figures st |}.

Definition batch_loss (mode : bool) (p : P) (b : batch) : F :=
  match criterion (logits_of mode p b) (y_true b) with
  | Ok loss => loss
  | Raise _ => F_of_Z 0
  end.

(** Loss and size of every batch of a training epoch, each loss taken
    with the parameters the preceding steps left. *)
Fixpoint train_losses_of (st : state) (bs : list batch) : list (F * Z) :=
  match bs with
  | [] => []
  | b :: bs' =>
      (batch_loss (training st) (params st) b, len (X b))
        :: train_losses_of (sgd_step st b) bs'
  end.

(** Loss and size of every batch of a validation epoch. *)
Definition valid_losses_of (p : P) (bs : list batch) : list (F * Z) :=
  map (fun b => (batch_loss false p b, len (X b))) bs.

(** The running sum: each loss times its batch's size, added in order
    to the initial [0]. *)
Definition weigh (acc : F) (lz : F * Z) : F :=
  Fadd acc (Fmul (fst lz) (F_of_Z (snd lz))).

Definition running_sum (ls : list (F * Z)) : F :=
  fold_left weigh ls (F_of_Z 0).

(** The state in which the batches of a traversal are processed: the
    mode flag set, the generator advanced by the sampler. *)
Definition entered (mode : bool) (ld : DataLoader) (st : state) : state :=
  {| params := params st; grads := grads st; training := mode;
     opt := opt st; rng := snd (sampled ld (rng st)); stdout := stdout st;
     figures := figures st |}.

(** A batch the model serves as the metric needs it: a row of
    probabilities per label, none of them empty. *)
Definition served (p : P) (b : batch) : Prop :=
  exists logits probs,
    forward false p (X b) = Ok (logits, probs) /\
    length probs = length (y_true b) /\
    Forall (fun row => row <> []) probs.

(** The model, in a mode and with parameters, and the loss function
    answer on a batch. *)
Definition answers (mode : bool) (p : P) (b : batch) : Prop :=
  exists logits probs loss,
    forward mode p (X b) = Ok (logits, probs) /\
    criterion logits (y_true b) = Ok loss.

(** They answer whatever the mode and the parameters. *)
Definition accepted (b : batch) : Prop :=
  forall mode p, answers mode p b.

(** They answer on every batch the loader can serve. *)
Definition serves_accepted (ld : DataLoader) : Prop :=
  forall g b, In b (batches_of ld g) -> accepted b.

(** [correct_pred] after the loop: untouched by an empty traversal, a
    tensor after any other. *)
Definition counted (p : P) (cp : pyval) (bs : list batch) : pyval :=
  match bs with
  | [] => cp
  | _ :: _ => py_add cp (Tensor (Z.of_nat (correct_samples p bs)))
  end.

(** [m] leaves the component [f] of the state as it found it, whether
    it returns or raises. *)
Definition preserves {T A : Type} (f : state -> T) (m : M A) : Prop :=
  forall st, f (snd (m st)) = f st.

(** What follows [train] in the body of an epoch. *)
Definition after_train (train_loader valid_loader : DataLoader)
    (print_every : Z) (tl vl : list F) (epoch : Z) (train_loss : F)
    : M (list F * list F) :=
  bind (validate valid_loader) (fun valid_loss =>
    bind (lift (py_mod epoch print_every)) (fun m =>
      bind (if m =? print_every - 1 then
              bind (get_accuracy train_loader) (fun train_acc =>
                bind (get_accuracy valid_loader) (fun valid_acc =>
                  print {| log_epoch := epoch; log_train_loss := train_loss;
                           log_valid_loss := valid_loss;
                           log_train_acc := train_acc;
                           log_valid_acc := valid_acc |}))
            else ret tt)
        (fun _ => ret (tl ++ [train_loss], vl ++ [valid_loss])))).

(** The interval predicate of the training loop. *)
Definition logs_at (print_every epoch : Z) : bool :=
  epoch mod print_every =? print_every - 1.



End Script.

(** ** The model: LeNet5

    Tensors of reals are nested lists; a layer checks the dimensions it
    depends on and raises when they do not fit.  The weights of a layer
    are read through an indexing function, so that a layer is its
    configuration and its weights and no shape has to be kept apart. *)

Module LeNet.
Local Open Scope R_scope.

(** One sample (channels, rows, columns), a batch of samples, and a batch
    of feature vectors. *)
Definition tensor3 : Type := list (list (list R)).
Definition tensor4 : Type := list tensor3.
Definition matrix : Type := list (list R).

Definition at3 (x : tensor3) (c i j : nat) : R :=
  nth j (nth i (nth c x []) []) 0.

Definition height (x : tensor3) : nat := length (hd [] x).
Definition width (x : tensor3) : nat := length (hd [] (hd [] x)).

Definition total (l : list R) : R := fold_right Rplus 0 l.

Definition sum_over (n : nat) (f : nat -> R) : R := total (map f (seq 0 n)).

Definition tabulate3 (c h w : nat) (f : nat -> nat -> nat -> R) : tensor3 :=
  map (fun o => map (fun i => map (fun j => f o i j) (seq 0 w)) (seq 0 h))
      (seq 0 c).

(** Apply a fallible function to every sample of a batch. *)
Fixpoint map_outcome {A C} (f : A -> outcome C) (l : list A) : outcome (list C) :=
  match l with
  | [] => Ok []
  | x :: l' =>
      match f x with
      | Raise e => Raise e
      | Ok y =>
          match map_outcome f l' with
          | Raise e => Raise e
          | Ok ys => Ok (y :: ys)
          end
      end
  end.

(** *** nn.Conv2d, stride 1, no padding *)

Record Conv2d : Type := {
  in_channels : nat;
  out_channels : nat;
  kernel_size : nat;
  conv_weight : nat -> nat -> nat -> nat -> R;
  conv_bias : nat -> R
}.

Definition conv2d (l : Conv2d) (x : tensor3) : outcome tensor3 :=
  let k := kernel_size l in
  if negb (length x =? in_channels l)%nat then Raise RuntimeError
  else if ((height x <? k) || (width x <? k))%nat then Raise RuntimeError
  else
    Ok (tabulate3 (out_channels l) (height x - k + 1) (width x - k + 1)
          (fun o i j =>
             conv_bias l o +
             sum_over (in_channels l) (fun c =>
               sum_over k (fun di =>
                 sum_over k (fun dj =>
                   conv_weight l o c di dj * at3 x c (i + di) (j + dj)))))).

(** *** nn.AvgPool2d, stride equal to the kernel size *)

Definition avg_pool2d (k : nat) (x : tensor3) : outcome tensor3 :=
  if ((height x <? k) || (width x <? k))%nat then Raise RuntimeError
  else
    Ok (tabulate3 (length x) (height x / k) (width x / k)
          (fun c i j =>
             sum_over k (fun di =>
               sum_over k (fun dj => at3 x c (k * i + di) (k * j + dj)))
             / INR (k * k))).

(** *** nn.Linear *)

Record Linear : Type := {
  in_features : nat;
  out_features : nat;
  lin_weight : nat -> nat -> R;
  lin_bias : nat -> R
}.

Definition linear (l : Linear) (v : list R) : outcome (list R) :=
  if negb (length v =? in_features l)%nat then Raise RuntimeError
  else
    Ok (map (fun o =>
               lin_bias l o +
               sum_over (in_features l) (fun i => lin_weight l o i * nth i v 0))
            (seq 0 (out_features l))).

(** *** nn.Sequential *)

Inductive layer4 : Type :=
| Conv (l : Conv2d)
| Tanh4
| AvgPool2d (k : nat).

Inductive layer2 : Type :=
| Lin (l : Linear)
| Tanh2.

Definition apply4 (l : layer4) (x : tensor4) : outcome tensor4 :=
  match l with
  | Conv c => map_outcome (conv2d c) x
  | Tanh4 => Ok (map (map (map (map tanh))) x)
  | AvgPool2d k => map_outcome (avg_pool2d k) x
  end.

Definition apply2 (l : layer2) (x : matrix) : outcome matrix :=
  match l with
  | Lin c => map_outcome (linear c) x
  | Tanh2 => Ok (map (map tanh) x)
  end.

Fixpoint sequential {L T} (apply : L -> T -> outcome T) (layers : list L) (x : T)
    : outcome T :=
  match layers with
  | [] => Ok x
  | l :: layers' =>
      match apply l x with
      | Raise e => Raise e
      | Ok y => sequential apply layers' y
      end
  end.

(** *** torch.flatten(x, 1) and F.softmax(logits, dim=1) *)

Definition flatten (x : tensor4) : matrix :=
  map (fun s => concat (concat s)) x.

Definition softmax_row (z : list R) : list R :=
  map (fun v => exp v / total (map exp z)) z.

Definition softmax (t : matrix) : matrix := map softmax_row t.

(** *** LeNet5 *)

Record LeNet5 : Type := {
  feature_extractor : list layer4;
  classifier : list layer2
}.

(** The values of the eleven parameter tensors. *)
Record weights : Type := {
  conv1_w : nat -> nat -> nat -> nat -> R;
  conv1_b : nat -> R;
  conv2_w : nat -> nat -> nat -> nat -> R;
  conv2_b : nat -> R;
  conv3_w : nat -> nat -> nat -> nat -> R;
  conv3_b : nat -> R;
  fc1_w : nat -> nat -> R;
  fc1_b : nat -> R;
  fc2_w : nat -> nat -> R;
  fc2_b : nat -> R
}.

(** [LeNet5.__init__]: the architecture, around given weights. *)
Definition LeNet5_init (n_classes : nat) (w : weights) : LeNet5 := {|
  feature_extractor :=
    [ Conv {| in_channels := 1; out_channels := 6; kernel_size := 5;
              conv_weight := conv1_w w; conv_bias := conv1_b w |};
      Tanh4;
      AvgPool2d 2;
      Conv {| in_channels := 6; out_channels := 16; kernel_size := 5;
              conv_weight := conv2_w w; conv_bias := conv2_b w |};
      Tanh4;
      AvgPool2d 2;
      Conv {| in_channels := 16; out_channels := 120; kernel_size := 5;
              conv_weight := conv3_w w; conv_bias := conv3_b w |};
      Tanh4 ];
  classifier :=
    [ Lin {| in_features := 120; out_features := 84;
             lin_weight := fc1_w w; lin_bias := fc1_b w |};
      Tanh2;
      Lin {| in_features := 84; out_features := n_classes;
             lin_weight := fc2_w w; lin_bias := fc2_b w |} ]
|}.

(** [LeNet5.forward]. *)
Definition forward (self : LeNet5) (x : tensor4) : outcome (matrix * matrix) :=
  match sequential apply4 (feature_extractor self) x with
  | Raise e => Raise e
  | Ok x =>
      let x := flatten x in
      match sequential apply2 (classifier self) x with
      | Raise e => Raise e
      | Ok logits =>
          let probs := softmax logits in
          Ok (logits, probs)
      end
  end.

(** *** Shapes *)

Definition shape2 (t : matrix) (n f : nat) : Prop :=
  length t = n /\ Forall (fun row => length row = f) t.

Definition shape3 (t : tensor3) (c h w : nat) : Prop :=
  length t = c /\
  Forall (fun ch => length ch = h /\ Forall (fun row => length row = w) ch) t.

Definition shape4 (t : tensor4) (n c h w : nat) : Prop :=
  length t = n /\ Forall (fun s => shape3 s c h w) t.

Definition Rltb (a b : R) : bool := if Rlt_dec a b then true else false.

(** The side of the last feature maps, from the side of the input:
    three convolutions of kernel 5 and two poolings of kernel 2. *)
Definition last_side (h : nat) : nat :=
  (((h - 5 + 1) / 2 - 5 + 1) / 2 - 5 + 1)%nat.

(** *** A blank image and a model with all weights at 0 *)

Definition blank : tensor3 := [repeat (repeat 0 IMG_SIZE) IMG_SIZE].

(** The logits of one sample, passed as a batch of one. *)
Definition sample_logits (self : LeNet5) (s : tensor3) : list R :=
  match forward self [s] with
  | Ok (l :: _, _) => l
  | _ => []
  end.

(** A blank image of any side. *)
Definition blank_of (side : nat) : tensor3 := [repeat (repeat 0 side) side].

Definition zero_weights : weights := {|
  conv1_w := fun _ _ _ _ => 0; conv1_b := fun _ => 0;
  conv2_w := fun _ _ _ _ => 0; conv2_b := fun _ => 0;
  conv3_w := fun _ _ _ _ => 0; conv3_b := fun _ => 0;
  fc1_w := fun _ _ => 0; fc1_b := fun _ => 0;
  fc2_w := fun _ _ => 0; fc2_b := fun _ => 0
|}.

End LeNet.

(** ** The script's instance of the backend *)

Section LeNetScript.
(** The loss function, automatic differentiation, the optimizer and the
    random generator stay abstract. *)
Variables gradient optimizer_state generator : Type.
Variable loss_fn : LeNet.matrix -> list Z -> outcome R.
Variable autograd : bool -> LeNet.weights -> LeNet.tensor4 -> list Z -> gradient.
Variable accumulate : gradient -> gradient -> gradient.
Variable step :
  optimizer_state -> LeNet.weights -> gradient -> LeNet.weights * optimizer_state.
Variable draw : generator -> nat -> nat * generator.
Variable seed_draw : generator -> Z * generator.
Variable seeded : Z -> generator.

(** [model = LeNet5(N_CLASSES)] with scalars in the reals; the mode flag
    changes nothing, the model has no layer that reads it. *)
Definition lenet_backend : Backend := {|
  F := R;
  F_of_Z := IZR;
  Fadd := Rplus;
  Fmul := Rmult;
  Fdiv := Rdiv;
  Fltb := LeNet.Rltb;
  image := LeNet.tensor3;
  P := LeNet.weights;
  Gr := gradient;
  O := optimizer_state;
  G := generator;
  forward := fun _ w x => LeNet.forward (LeNet.LeNet5_init N_CLASSES w) x;
  criterion := loss_fn;
  backward := autograd;
  grad_acc := accumulate;
  opt_step := step;
  next_rand := draw;
  draw_seed := seed_draw;
  manual_seed := seeded
|}.
End LeNetScript.

(** The model with a loss that is always 0, no gradient, an optimizer
    that leaves the weights alone and a generator that always draws 0. *)
Definition lenet_plain : Backend :=
  lenet_backend unit unit unit
    (fun _ _ => Ok 0%R) (fun _ _ _ _ => tt) (fun _ _ => tt)
    (fun o w _ => (w, o)) (fun g _ => (0%nat, g))
    (fun g => (0, g)) (fun _ => tt).

(** What the script asks of [nn.CrossEntropyLoss]: a loss for every
    non-empty batch of labels that are classes, given one row of
    [N_CLASSES] scores per label. *)
Definition loss_contract (loss_fn : LeNet.matrix -> list Z -> outcome R) : Prop :=
  forall logits ys,
    ys <> [] ->
    LeNet.shape2 logits (length ys) N_CLASSES ->
    Forall (fun y => 0 <= y < Z.of_nat N_CLASSES) ys ->
    exists loss, loss_fn logits ys = Ok loss.

(** The labels of a dataset are classes. *)
Definition labelled_with_classes {A} (data : list (A * Z)) : Prop :=
  Forall (fun s => 0 <= snd s < Z.of_nat N_CLASSES) data.

(** Two blank images with labels 0 and 3, for the model with all
    weights at 0. *)
Definition blank_loader (bs : positive) (sh : bool) : DataLoader (B := lenet_plain) :=
  @Build_DataLoader lenet_plain [(LeNet.blank, 0); (LeNet.blank, 3)] bs sh.

Definition blank_start : state (B := lenet_plain) :=
  @Build_state lenet_plain LeNet.zero_weights None true tt tt [] [].

(** ** A small instance to run the routines on

    A toy classifier over integer "images" with rational scalars: the
    class of image [x] under parameter [p] is [(x + p) mod 10], the
    probabilities are the one-hot row of that class, the loss is the
    fraction of samples whose label is not the class, and an optimizer step
    adds the gradient to the parameter. *)

Module Demo.

Definition one_hot (k : Z) : list Q :=
  map (fun c => if Z.of_nat c =? k then 1%Q else 0%Q) (seq 0 N_CLASSES).

Definition rows (p : Z) (xs : list Z) : list (list Q) :=
  map (fun x => one_hot ((x + p) mod 10)) xs.

Definition zero_one_loss (logits : list (list Q)) (ys : list Z) : Q :=
  Qred (fold_right Qplus 0%Q
          (map2 (fun row y => (1 - nth (Z.to_nat y) row 0)%Q) logits ys)
        / inject_Z (len ys)).

(** The loss of the toy classifier, which rejects a label that is no
    class. *)
Definition checked_loss (logits : list (list Q)) (ys : list Z) : outcome Q :=
  if forallb (fun y => (0 <=? y) && (y <? Z.of_nat N_CLASSES)) ys
  then Ok (zero_one_loss logits ys)
  else Raise IndexError.

Definition backend : Backend := {|
  F := Q;
  F_of_Z := inject_Z;
  Fadd := fun a b => Qred (a + b);
  Fmul := fun a b => Qred (a * b);
  Fdiv := fun a b => Qred (a / b);
  Fltb := fun a b => negb (Qle_bool b a);
  image := Z;
  P := Z;
  Gr := Z;
  O := nat;
  G := nat;
  forward := fun _ p xs => Ok (rows p xs, rows p xs);
  criterion := checked_loss;
  backward := fun _ _ _ _ => 1;
  grad_acc := Z.add;
  opt_step := fun o p g => (p + g, S o);
  next_rand := fun g bound => ((g * 7 + 3) mod bound, S g)%nat;
  draw_seed := fun g => (Z.of_nat g, S g);
  manual_seed := Z.to_nat
|}.

(** Eight samples, each labelled with its own value: two batches of
    four. *)
Definition samples : list (Z * Z) :=
  [(0, 0); (1, 1); (2, 2); (3, 3); (4, 4); (5, 5); (6, 6); (7, 7)].

Definition loader (sh : bool) : DataLoader (B := backend) :=
  @Build_DataLoader backend samples 4%positive sh.

(** The same inputs with every label off by one. *)
Definition mislabelled : DataLoader (B := backend) :=
  @Build_DataLoader backend
    (map (fun s => (fst s, snd s + 1)) samples) 4%positive false.

Definition empty_loader : DataLoader (B := backend) :=
  @Build_DataLoader backend [] BATCH_SIZE false.

Definition start : state (B := backend) :=
  @Build_state backend 0 None true 0%nat (Z.to_nat RANDOM_SEED) [] [].

(** A state with the same parameters, optimizer and generator as
    [start], left in inference mode with a gradient in place. *)
Definition stale : state (B := backend) :=
  @Build_state backend 0 (Some 5) false 0%nat (Z.to_nat RANDOM_SEED) [] [].

End Demo.

(** * Properties *)

(** ** Batching and sampling *)

Section BatchingFacts.
Context {A : Type}.

Lemma chunks_from_concat (bs : nat) (l cur : list A) :
  concat (chunks_from bs cur l) = cur ++ l.
Proof.
  revert cur; induction l as [|x l IH]; intros cur; simpl.
  - destruct cur; simpl; [reflexivity|].
    now rewrite !app_nil_r.
  - destruct (length (cur ++ [x]) =? bs)%nat; simpl; rewrite IH.
    + now rewrite <- app_assoc.
    + now rewrite <- app_assoc.
Qed.

Lemma chunks_from_nonempty (bs : nat) (l cur : list A) :
  Forall (fun c => c <> []) (chunks_from bs cur l).
Proof.
  revert cur; induction l as [|x l IH]; intros cur; simpl.
  - destruct cur; constructor; [discriminate | constructor].
  - destruct (length (cur ++ [x]) =? bs)%nat.
    + constructor; [|apply IH].
      destruct cur; discriminate.
    + apply IH.
Qed.

Lemma chunks_concat (bs : positive) (l : list A) :
  concat (chunks bs l) = l.
Proof. unfold chunks. now rewrite chunks_from_concat. Qed.

Lemma chunks_nil_inv (bs : positive) (l : list A) :
  chunks bs l = [] -> l = [].
Proof.
  intros H. rewrite <- (chunks_concat bs l), H. reflexivity.
Qed.

Lemma insert_at_perm (k : nat) (x : A) (l : list A) :
  Permutation (insert_at k x l) (x :: l).
Proof.
  unfold insert_at. symmetry.
  apply Permutation_cons_app. now rewrite firstn_skipn.
Qed.

Lemma in_concat_chunk (c : list A) (cs : list (list A)) (x : A) :
  In c cs -> In x c -> In x (concat cs).
Proof. intros Hc Hx. apply in_concat. eauto. Qed.
End BatchingFacts.

Section ScriptFacts.
Context {B : Backend}.

Lemma shuffled_perm (l : list (image * Z)) (g : G) :
  Permutation (fst (shuffled l g)) l.
Proof.
  induction l as [|x l IH]; simpl; [constructor|].
  destruct (shuffled l g) as [p g1]; simpl in IH.
  destruct (next_rand g1 (S (length p))) as [r g2]; simpl.
  rewrite insert_at_perm. now constructor.
Qed.

Lemma sampled_perm (ld : DataLoader) (g : G) :
  Permutation (fst (sampled ld g)) (dataset ld).
Proof.
  unfold sampled. destruct (draw_seed g) as [base g1].
  destruct (shuffle ld); [|reflexivity].
  destruct (draw_seed g1) as [seed g2]. apply shuffled_perm.
Qed.

(** A loader that does not shuffle serves the dataset in its order. *)
Lemma sampled_unshuffled (ld : DataLoader) (g : G) :
  shuffle ld = false -> fst (sampled ld g) = dataset ld.
Proof.
  intros Hs. unfold sampled. destruct (draw_seed g) as [base g1].
  now rewrite Hs.
Qed.

Lemma sampled_nil (ld : DataLoader) (g : G) :
  dataset ld = [] -> fst (sampled ld g) = [].
Proof.
  intros H. pose proof (sampled_perm ld g) as Hp. rewrite H in Hp.
  now apply Permutation_sym, Permutation_nil in Hp.
Qed.

Lemma batches_of_nil (ld : DataLoader) (g : G) :
  dataset ld = [] -> batches_of ld g = [].
Proof.
  intros H. unfold batches_of. now rewrite sampled_nil.
Qed.

Lemma batches_of_nonempty (ld : DataLoader) (g : G) :
  dataset ld <> [] -> batches_of ld g <> [].
Proof.
  intros H E. unfold batches_of in E.
  apply map_eq_nil, chunks_nil_inv in E.
  pose proof (sampled_perm ld g) as Hp. rewrite E in Hp.
  apply Permutation_nil in Hp. contradiction.
Qed.

(** Every batch holds at least one sample, and as many labels as inputs. *)
Lemma batches_of_shape (ld : DataLoader) (g : G) (b : batch) :
  In b (batches_of ld g) ->
  X b <> [] /\ length (y_true b) = length (X b).
Proof.
  unfold batches_of. intros H. apply in_map_iff in H as (c & <- & Hc).
  pose proof (chunks_from_nonempty (Pos.to_nat (batch_size ld))
                (fst (sampled ld g)) []) as Hne.
  rewrite Forall_forall in Hne. specialize (Hne c Hc).
  unfold collate; cbn [X y_true]. split.
  - destruct c; [contradiction | discriminate].
  - now rewrite !length_map.
Qed.

(** The inputs of every batch come from the dataset. *)
Lemma batches_of_incl (ld : DataLoader) (g : G) (b : batch) :
  In b (batches_of ld g) -> incl (X b) (map fst (dataset ld)).
Proof.
  unfold batches_of. intros H x Hx.
  apply in_map_iff in H as (c & <- & Hc). simpl in Hx.
  apply in_map_iff in Hx as (s & <- & Hs). apply in_map.
  apply (Permutation_in _ (sampled_perm ld g)).
  rewrite <- (chunks_concat (batch_size ld)).
  eapply in_concat_chunk; eauto.
Qed.

(** So do the labels of every batch. *)
Lemma batches_of_labels (ld : DataLoader) (g : G) (b : batch) :
  In b (batches_of ld g) -> incl (y_true b) (map snd (dataset ld)).
Proof.
  unfold batches_of. intros H y Hy.
  apply in_map_iff in H as (c & <- & Hc). simpl in Hy.
  apply in_map_iff in Hy as (s & <- & Hs). apply in_map.
  apply (Permutation_in _ (sampled_perm ld g)).
  rewrite <- (chunks_concat (batch_size ld)).
  eapply in_concat_chunk; eauto.
Qed.

Lemma total_samples_batches (ld : DataLoader) (g : G) :
  total_samples (batches_of ld g) = length (dataset ld).
Proof.
  unfold batches_of.
  rewrite <- (Permutation_length (sampled_perm ld g)).
  rewrite <- (chunks_concat (batch_size ld) (fst (sampled ld g))) at 2.
  generalize (chunks (batch_size ld) (fst (sampled ld g))) as cs.
  unfold total_samples.
  induction cs as [|c cs IH]; [reflexivity|].
  cbn [map fold_right concat collate y_true].
  now rewrite length_app, length_map, IH.
Qed.

End ScriptFacts.

(** ** The accuracy metric *)

Section AccuracyFacts.
Context {B : Backend}.

Lemma contract_served (ld : DataLoader) (g : G) (p : P) (b : batch) :
  model_contract ld -> In b (batches_of ld g) -> served p b.
Proof.
  intros Hc Hb.
  destruct (Hc false p (X b) (batches_of_incl ld g b Hb))
    as (logits & probs & Hf & _ & Hlen & _ & Hrows).
  destruct (batches_of_shape ld g b Hb) as [_ Hy].
  exists logits, probs. repeat split; [assumption | congruence |].
  eapply Forall_impl; [|exact Hrows].
  intros row Hr E. rewrite E in Hr. discriminate.
Qed.

Lemma torch_max_dim1_rows (t : list (list F)) :
  Forall (fun row => row <> []) t ->
  exists vs, torch_max_dim1 t = Ok (vs, map predicted_class t).
Proof.
  induction 1 as [|row t Hrow _ IH]; simpl.
  - now exists [].
  - destruct IH as [vs ->].
    destruct row as [|x row]; [contradiction|]. simpl.
    destruct (max_from x 0 1 row) as [v i]. now exists (v :: vs).
Qed.

Lemma tensor_eq_same_length (a b : list Z) :
  length a = length b -> tensor_eq a b = Ok (map2 Z.eqb a b).
Proof.
  intros H. unfold tensor_eq. now rewrite H, Nat.eqb_refl.
Qed.

Lemma tensor_sum_hits (a b : list Z) :
  tensor_sum (map2 Z.eqb a b) =
  Z.of_nat (length (filter (fun py => fst py =? snd py) (combine a b))).
Proof.
  revert b; induction a as [|x a IH]; intros [|y b]; try reflexivity.
  cbn [map2 tensor_sum combine filter fst snd]. rewrite IH.
  destruct (x =? y); cbn [length]; lia.
Qed.

Lemma py_add_tensor (cp : pyval) (a b : Z) :
  py_add (py_add cp (Tensor a)) (Tensor b) = py_add cp (Tensor (a + b)).
Proof. destruct cp; simpl; f_equal; lia. Qed.

Lemma accuracy_body_run (cp : pyval) (n : Z) (b : batch) (st : state) :
  training st = false -> served (params st) b ->
  accuracy_body (cp, n) b st =
  (Ok (py_add cp (Tensor (Z.of_nat (hits (params st) b))),
       n + len (y_true b)), st).
Proof.
  intros Hm (logits & probs & Hf & Hlen & Hrows).
  destruct (torch_max_dim1_rows probs Hrows) as [vs Hmax].
  unfold accuracy_body, bind, model_call, lift, ret.
  rewrite Hm, Hf. cbn [snd]. rewrite Hmax. cbn [snd].
  rewrite tensor_eq_same_length by (rewrite length_map; exact Hlen).
  rewrite tensor_sum_hits.
  unfold hits, predictions, probs_of. now rewrite Hf.
Qed.

Lemma accuracy_loop_run (bs : list batch) (cp : pyval) (n : Z) (st : state) :
  training st = false ->
  (forall b, In b bs -> served (params st) b) ->
  for_each bs (cp, n) accuracy_body st =
  (Ok (counted (params st) cp bs, n + Z.of_nat (total_samples bs)), st).
Proof.
  intros Hm. revert cp n.
  induction bs as [|b bs IH]; intros cp n Hs.
  - cbn. unfold ret. now rewrite Z.add_0_r.
  - cbn [for_each]. unfold bind at 1.
    rewrite accuracy_body_run by (auto using in_eq).
    rewrite IH by (intros; apply Hs; now right).
    do 3 f_equal.
    + unfold counted. destruct bs as [|b' bs].
      * unfold correct_samples. cbn [map fold_right].
        now rewrite Nat.add_0_r.
      * rewrite py_add_tensor. do 2 f_equal.
        change (correct_samples (params st) (b :: b' :: bs))
          with (hits (params st) b + correct_samples (params st) (b' :: bs))%nat.
        lia.
    + unfold len.
      change (total_samples (b :: bs))
        with (length (y_true b) + total_samples bs)%nat.
      lia.
Qed.

Lemma accuracy_counts_run (ld : DataLoader) (st : state) :
  model_contract ld ->
  accuracy_counts ld st =
  (Ok (counted (params st) (PyInt 0) (batches_of ld (rng st)),
       Z.of_nat (length (dataset ld))),
   entered false ld st).
Proof.
  intros Hc. unfold accuracy_counts, bind, model_eval, iter_loader.
  cbn [training params rng grads opt stdout figures].
  fold (entered false ld st).
  rewrite accuracy_loop_run.
  - cbn [params entered]. now rewrite total_samples_batches.
  - reflexivity.
  - intros b Hb. eapply contract_served; eauto.
Qed.

(** What [get_accuracy] does on a loader whose dataset is not empty. *)
Lemma get_accuracy_run (ld : DataLoader) (st : state) :
  dataset ld <> [] -> model_contract ld ->
  get_accuracy ld st =
  (Ok (fraction (correct_samples (params st) (batches_of ld (rng st)))
                (length (dataset ld))),
   entered false ld st).
Proof.
  intros Hne Hc. unfold get_accuracy, bind at 1.
  rewrite accuracy_counts_run by assumption.
  pose proof (batches_of_nonempty ld (rng st) Hne) as Hb.
  destruct (batches_of ld (rng st)) as [|b bs] eqn:E; [contradiction|].
  cbn [counted py_add]. unfold bind, lift, ret. cbn [py_float].
  unfold tensor_div, fraction.
  destruct (Z.eqb_spec (Z.of_nat (length (dataset ld))) 0) as [H0|_].
  - destruct (dataset ld); [contradiction | discriminate].
  - reflexivity.
Qed.

(** *** Counting *)

Lemma hits_le (p : P) (b : batch) : (hits p b <= length (y_true b))%nat.
Proof.
  unfold hits.
  etransitivity; [apply filter_length_le|].
  rewrite length_combine. apply Nat.le_min_r.
Qed.

Lemma correct_le_total (p : P) (bs : list batch) :
  (correct_samples p bs <= total_samples bs)%nat.
Proof.
  unfold correct_samples, total_samples.
  induction bs as [|b bs IH]; cbn [map fold_right]; [lia|].
  pose proof (hits_le p b). lia.
Qed.

Lemma filter_eq_diag (l : list Z) :
  length (filter (fun py => fst py =? snd py) (combine l l)) = length l.
Proof.
  induction l as [|x l IH]; [reflexivity|].
  cbn [combine filter fst snd]. rewrite Z.eqb_refl. cbn [length].
  now rewrite IH.
Qed.

Lemma filter_eq_apart (a b : list Z) :
  Forall2 (fun c y => c <> y) a b ->
  filter (fun py => fst py =? snd py) (combine a b) = [].
Proof.
  induction 1 as [|c y a b Hcy _ IH]; [reflexivity|].
  cbn [combine filter fst snd].
  destruct (Z.eqb_spec c y); [contradiction | exact IH].
Qed.

Lemma all_correct_count (p : P) (bs : list batch) :
  (forall b, In b bs -> predictions p b = y_true b) ->
  correct_samples p bs = total_samples bs.
Proof.
  unfold correct_samples, total_samples.
  induction bs as [|b bs IH]; intros H; cbn [map fold_right]; [reflexivity|].
  rewrite IH by (intros; apply H; now right).
  f_equal. unfold hits. rewrite (H b (in_eq _ _)). apply filter_eq_diag.
Qed.

Lemma all_wrong_count (p : P) (bs : list batch) :
  (forall b, In b bs ->
     Forall2 (fun c y => c <> y) (predictions p b) (y_true b)) ->
  correct_samples p bs = 0%nat.
Proof.
  unfold correct_samples.
  induction bs as [|b bs IH]; intros H; cbn [map fold_right]; [reflexivity|].
  rewrite IH by (intros; apply H; now right).
  unfold hits. now rewrite (filter_eq_apart _ _ (H b (in_eq _ _))).
Qed.

(** *** The quotient *)

Lemma fraction_unit_interval (c n : nat) :
  (c <= n)%nat -> (0 < n)%nat ->
  exists q, fraction c n = Fin q /\ (0 <= q <= 1)%Q.
Proof.
  intros Hcn Hn. eexists; split; [reflexivity|].
  rewrite Qred_correct.
  assert (Hpos : (0 < inject_Z (Z.of_nat n))%Q).
  { rewrite <- (Zlt_Qlt 0). lia. }
  split.
  - apply Qle_shift_div_l; [exact Hpos|].
    rewrite Qmult_0_l. rewrite <- (Zle_Qle 0). lia.
  - apply Qle_shift_div_r; [exact Hpos|].
    rewrite Qmult_1_l. rewrite <- Zle_Qle. lia.
Qed.

Lemma fraction_all (n : nat) : (0 < n)%nat -> fraction n n = Fin 1.
Proof.
  intros Hn. unfold fraction. f_equal.
  change 1%Q with (Qred 1). apply Qred_complete.
  apply Qmult_inv_r. intros E.
  assert (H : (0 < inject_Z (Z.of_nat n))%Q) by (rewrite <- (Zlt_Qlt 0); lia).
  rewrite E in H. discriminate.
Qed.

Lemma fraction_none (n : nat) : fraction 0 n = Fin 0.
Proof.
  unfold fraction. apply f_equal.
  change (Qred (0 / inject_Z (Z.of_nat n)) = Qred 0).
  apply Qred_complete, Qmult_0_l.
Qed.

(** *** The claims on [get_accuracy] *)

(** C2, as amended: on a loader whose dataset is not empty, and for a
    model that keeps its contract on the loader's batches,
    [get_accuracy] returns the number of samples of the traversal whose
    predicted class (the index [torch.max] picks in the row of
    probabilities) equals the true label, divided by the number of
    samples of the traversal, which is the size of the dataset. *)
Theorem get_accuracy_is_fraction_correct (ld : DataLoader) (st : state) :
  dataset ld <> [] -> model_contract ld ->
  fst (get_accuracy ld st) =
    Ok (fraction (correct_samples (params st) (batches_of ld (rng st)))
                 (total_samples (batches_of ld (rng st)))) /\
  total_samples (batches_of ld (rng st)) = length (dataset ld) /\
  (0 < total_samples (batches_of ld (rng st)))%nat.
Proof.
  intros Hne Hc. rewrite get_accuracy_run by assumption.
  rewrite total_samples_batches. repeat split.
  destruct (dataset ld); [contradiction | cbn; lia].
Qed.

(** C3: on a loader whose dataset is not empty, [get_accuracy] returns
    a value between 0 and 1; the value is exactly 1 when every predicted
    label equals the true label, and exactly 0 when every predicted
    label differs from it. *)
Theorem get_accuracy_unit_interval (ld : DataLoader) (st : state) :
  dataset ld <> [] -> model_contract ld ->
  exists q,
    fst (get_accuracy ld st) = Ok (Fin q) /\
    (0 <= q <= 1)%Q /\
    ((forall b, In b (batches_of ld (rng st)) ->
        predictions (params st) b = y_true b) -> q = 1%Q) /\
    ((forall b, In b (batches_of ld (rng st)) ->
        Forall2 (fun c y => c <> y) (predictions (params st) b) (y_true b)) ->
     q = 0%Q).
Proof.
  intros Hne Hc. rewrite get_accuracy_run by assumption. cbn [fst].
  set (bs := batches_of ld (rng st)).
  assert (Hn : (0 < length (dataset ld))%nat).
  { destruct (dataset ld); [contradiction | cbn; lia]. }
  assert (Hle : (correct_samples (params st) bs <= length (dataset ld))%nat).
  { rewrite <- (total_samples_batches ld (rng st)). apply correct_le_total. }
  destruct (fraction_unit_interval _ _ Hle Hn) as (q & Hq & Hrange).
  exists q. repeat split; try (now rewrite Hq); try apply Hrange.
  - intros Hall.
    rewrite (all_correct_count _ _ Hall) in Hq. subst bs.
    rewrite total_samples_batches, fraction_all in Hq by assumption.
    congruence.
  - intros Hnone.
    rewrite (all_wrong_count _ _ Hnone), fraction_none in Hq.
    congruence.
Qed.

(** C10: on a loader whose dataset is empty the loop of [get_accuracy]
    leaves [n] at 0 and [correct_pred] the plain integer 0, and the
    final expression raises instead of producing an accuracy. *)
Theorem get_accuracy_empty_raises (ld : DataLoader) (st : state) :
  dataset ld = [] ->
  fst (accuracy_counts ld st) = Ok (PyInt 0, 0) /\
  fst (get_accuracy ld st) = Raise AttributeError.
Proof.
  intros He.
  assert (H : accuracy_counts ld st = (Ok (PyInt 0, 0), entered false ld st)).
  { unfold accuracy_counts, bind, model_eval, iter_loader.
    cbn [rng]. now rewrite batches_of_nil. }
  split; [now rewrite H|].
  unfold get_accuracy, bind at 1. now rewrite H.
Qed.

End AccuracyFacts.

Module DemoFacts.

Lemma one_hot_length (k : Z) : length (Demo.one_hot k) = N_CLASSES.
Proof. unfold Demo.one_hot. now rewrite length_map, length_seq. Qed.

Lemma contract (ld : DataLoader (B := Demo.backend)) : model_contract ld.
Proof.
  intros mode p xs _. exists (Demo.rows p xs), (Demo.rows p xs).
  unfold Demo.rows. rewrite length_map.
  assert (H : Forall (fun row : list Q => length row = N_CLASSES)
                (map (fun x => Demo.one_hot ((x + p) mod 10)) xs)).
  { apply Forall_forall. intros row Hr.
    apply in_map_iff in Hr as (x & <- & _). apply one_hot_length. }
  repeat split; assumption.
Qed.

(** The toy model and its loss function answer on every batch whose
    labels are classes. *)
Lemma serves (ld : DataLoader (B := Demo.backend)) :
  (forall s, In s (dataset ld) -> 0 <= snd s < Z.of_nat N_CLASSES) ->
  serves_accepted ld.
Proof.
  intros Hl g b Hb mode p.
  exists (Demo.rows p (X b)), (Demo.rows p (X b)).
  exists (Demo.zero_one_loss (Demo.rows p (X b)) (y_true b)).
  split; [reflexivity|].
  cbn [criterion Demo.backend]. unfold Demo.checked_loss.
  replace (forallb _ (y_true b)) with true; [reflexivity|].
  symmetry. apply forallb_forall. intros y Hy.
  apply (batches_of_labels ld g b Hb) in Hy.
  apply in_map_iff in Hy as (s & <- & Hs). specialize (Hl s Hs).
  apply andb_true_iff. split; [apply Z.leb_le | apply Z.ltb_lt]; lia.
Qed.

Lemma loader_serves (sh : bool) : serves_accepted (Demo.loader sh).
Proof.
  apply serves. intros s Hs. cbn in Hs.
  repeat (destruct Hs as [<- | Hs]; [cbn; lia|]). contradiction.
Qed.

End DemoFacts.

(** C2, as stated, fails on the empty loader: no value is returned. *)
Lemma get_accuracy_returns_nothing_on_empty :
  fst (get_accuracy Demo.empty_loader Demo.start) = Raise AttributeError /\
  ~ (exists v, fst (get_accuracy Demo.empty_loader Demo.start) = Ok v).
Proof.
  split; [reflexivity|]. intros [v H]. discriminate H.
Qed.

Lemma get_accuracy_is_fraction_correct_witness :
  dataset (Demo.loader true) <> [] /\
  fst (get_accuracy (Demo.loader true) Demo.start) = Ok (Fin 1).
Proof.
  split; [discriminate|].
  destruct (get_accuracy_is_fraction_correct (Demo.loader true) Demo.start)
    as (H & _); [discriminate | apply DemoFacts.contract |].
  rewrite H. reflexivity.
Defined.

Lemma get_accuracy_unit_interval_witness :
  dataset Demo.mislabelled <> [] /\
  exists q, fst (get_accuracy Demo.mislabelled Demo.start) = Ok (Fin q) /\
            (0 <= q <= 1)%Q.
Proof.
  split; [discriminate|].
  destruct (get_accuracy_unit_interval Demo.mislabelled Demo.start)
    as (q & H & Hq & _); [discriminate | apply DemoFacts.contract |].
  exists q. split; assumption.
Defined.

Lemma get_accuracy_empty_raises_witness :
  dataset Demo.empty_loader = [] /\
  fst (get_accuracy Demo.empty_loader Demo.start) = Raise AttributeError.
Proof.
  split; [reflexivity|].
  apply (get_accuracy_empty_raises Demo.empty_loader Demo.start). reflexivity.
Defined.

(** ** Frames: what a computation leaves alone *)

Section FrameFacts.
Context {B : Backend}.

Lemma preserves_ret {T A} (f : state -> T) (a : A) : preserves f (ret a).
Proof. intros st. reflexivity. Qed.

Lemma preserves_lift {T A} (f : state -> T) (o : outcome A) :
  preserves f (lift o).
Proof. intros st. reflexivity. Qed.

Lemma preserves_bind {T A C} (f : state -> T) (m : M A) (k : A -> M C) :
  preserves f m -> (forall a, preserves f (k a)) -> preserves f (bind m k).
Proof.
  intros Hm Hk st. unfold bind. specialize (Hm st).
  destruct (m st) as [[a|e] st1]; cbn [snd] in *.
  - now rewrite Hk.
  - assumption.
Qed.

Lemma preserves_for_each {T A C} (f : state -> T) (l : list A)
    (body : C -> A -> M C) :
  (forall acc x, preserves f (body acc x)) ->
  forall acc, preserves f (for_each l acc body).
Proof.
  intros Hb. induction l as [|x l IH]; intros acc; cbn [for_each].
  - apply preserves_ret.
  - apply preserves_bind; [apply Hb | intros; apply IH].
Qed.

Lemma preserves_model_call {T} (f : state -> T) (x : list image) :
  preserves f (model_call x).
Proof. intros st. reflexivity. Qed.

Lemma bind_ok_inv {A C} (m : M A) (k : A -> M C) st c st' :
  bind m k st = (Ok c, st') ->
  exists a st1, m st = (Ok a, st1) /\ k a st1 = (Ok c, st').
Proof.
  unfold bind. destruct (m st) as [[a|e] st1]; intros H.
  - now exists a, st1.
  - discriminate.
Qed.

End FrameFacts.

Create HintDb frame.
#[local] Hint Resolve preserves_ret preserves_lift preserves_model_call : frame.

(** ** The epoch routines *)

Section EpochFacts.
Context {B : Backend}.

Lemma train_body_run (rl : F) (b : batch) (st : state) :
  answers (training st) (params st) b ->
  train_body rl b st =
  (Ok (weigh rl (batch_loss (training st) (params st) b, len (X b))),
   sgd_step st b).
Proof.
  intros (logits & probs & loss & Hf & Hl).
  unfold train_body, bind, lift, optimizer_zero_grad, model_call,
    loss_backward, optimizer_step, ret, sgd_step, weigh, batch_loss, logits_of.
  cbn [training params grads opt rng stdout figures fst snd].
  rewrite Hf. cbn [fst]. rewrite Hl. cbn [fst snd].
  now destruct (opt_step (opt st) (params st)
                  (backward (training st) (params st) (X b) (y_true b))).
Qed.

Lemma train_loop_run (bs : list batch) (rl : F) (st : state) :
  (forall b, In b bs -> accepted b) ->
  for_each bs rl train_body st =
  (Ok (fold_left weigh (train_losses_of st bs) rl), fold_left sgd_step bs st).
Proof.
  revert rl st. induction bs as [|b bs IH]; intros rl st Ha.
  - reflexivity.
  - cbn [for_each]. unfold bind.
    rewrite train_body_run by (apply Ha; now left).
    rewrite IH by (intros; apply Ha; now right).
    reflexivity.
Qed.

Lemma validate_body_run (rl : F) (b : batch) (st : state) :
  answers (training st) (params st) b ->
  validate_body rl b st =
  (Ok (weigh rl (batch_loss (training st) (params st) b, len (X b))), st).
Proof.
  intros (logits & probs & loss & Hf & Hl).
  unfold validate_body, bind, lift, model_call, ret, weigh, batch_loss,
    logits_of.
  rewrite Hf. cbn [fst]. now rewrite Hl.
Qed.

Lemma validate_loop_run (bs : list batch) (rl : F) (st : state) :
  training st = false ->
  (forall b, In b bs -> answers false (params st) b) ->
  for_each bs rl validate_body st =
  (Ok (fold_left weigh (valid_losses_of (params st) bs) rl), st).
Proof.
  intros Hm. revert rl. induction bs as [|b bs IH]; intros rl Ha.
  - reflexivity.
  - cbn [for_each]. unfold bind.
    rewrite validate_body_run by (rewrite Hm; apply Ha; now left).
    rewrite IH by (intros; apply Ha; now right).
    unfold valid_losses_of. cbn [map fold_left]. now rewrite Hm.
Qed.

Lemma py_truediv_nonzero (x : F) (n : Z) :
  n <> 0 -> py_truediv x n = Ok (Fdiv x (F_of_Z n)).
Proof.
  intros H. unfold py_truediv. now destruct (Z.eqb_spec n 0).
Qed.

Lemma len_nonzero {A} (l : list A) : l <> [] -> len l <> 0.
Proof. destruct l; [contradiction | discriminate]. Qed.

(** What [train] does, whatever the size of the dataset. *)
Lemma train_run (ld : DataLoader) (st : state) :
  (forall b, In b (batches_of ld (rng st)) -> accepted b) ->
  train ld st =
  (py_truediv (running_sum (train_losses_of (entered true ld st)
                              (batches_of ld (rng st))))
              (len (dataset ld)),
   fold_left sgd_step (batches_of ld (rng st)) (entered true ld st)).
Proof.
  intros Ha. unfold train, bind at 1 2, model_train, iter_loader.
  cbn [training params rng grads opt stdout figures].
  fold (entered true ld st). unfold bind.
  rewrite train_loop_run by assumption.
  reflexivity.
Qed.

(** What [validate] does, whatever the size of the dataset. *)
Lemma validate_run (ld : DataLoader) (st : state) :
  (forall b, In b (batches_of ld (rng st)) -> answers false (params st) b) ->
  validate ld st =
  (py_truediv (running_sum (valid_losses_of (params st)
                              (batches_of ld (rng st))))
              (len (dataset ld)),
   entered false ld st).
Proof.
  intros Ha. unfold validate, bind at 1 2, model_eval, iter_loader.
  cbn [training params rng grads opt stdout figures].
  fold (entered false ld st). unfold bind.
  rewrite validate_loop_run; [reflexivity | reflexivity | exact Ha].
Qed.

(** On a loader without samples no batch is served, and the division by
    the size of the dataset raises. *)
Lemma validate_empty (ld : DataLoader) (st : state) :
  dataset ld = [] -> fst (validate ld st) = Raise ZeroDivisionError.
Proof.
  intros He. rewrite validate_run.
  - cbn [fst]. now rewrite He.
  - intros b Hb. rewrite (batches_of_nil ld (rng st) He) in Hb.
    contradiction.
Qed.

(** [validate] touches neither the parameters, nor the gradients, nor
    the optimizer, also when the model, the loss function or the
    division raises. *)
Lemma validate_preserves {T} (f : state -> T) (ld : DataLoader) :
  (forall st mode g,
      f {| params := params st; grads := grads st; training := mode;
           opt := opt st; rng := g; stdout := stdout st;
           figures := figures st |} = f st) ->
  preserves f (validate ld).
Proof.
  intros Hf. unfold validate.
  apply preserves_bind; [intros st; apply Hf|]. intros _.
  apply preserves_bind; [intros st; apply Hf|]. intros bs.
  apply preserves_bind; [|intros; apply preserves_lift].
  apply preserves_for_each. intros acc b. unfold validate_body.
  apply preserves_bind; auto with frame. intros y.
  apply preserves_bind; auto with frame.
Qed.

(** C4, as amended: on a loader whose dataset is not empty, and for
    every model and loss function that accept the batches the iterator
    serves, one call to [train] takes the batches in the order the
    loader serves them, adds each batch's loss times the batch's size to
    a running sum that starts at 0, does one optimizer step per batch,
    and returns the running sum divided by the size of the dataset,
    which is the number of samples served. *)
Theorem train_returns_mean_loss (ld : DataLoader) (st : state) :
  dataset ld <> [] ->
  (forall b, In b (batches_of ld (rng st)) -> accepted b) ->
  train ld st =
    (Ok (Fdiv (running_sum (train_losses_of (entered true ld st)
                              (batches_of ld (rng st))))
              (F_of_Z (len (dataset ld)))),
     fold_left sgd_step (batches_of ld (rng st)) (entered true ld st)) /\
  len (dataset ld) = Z.of_nat (total_samples (batches_of ld (rng st))).
Proof.
  intros Hne Ha. rewrite train_run by assumption.
  rewrite py_truediv_nonzero by (now apply len_nonzero).
  now rewrite total_samples_batches.
Qed.

(** C5, as amended: one call to [validate] leaves the parameters, the
    gradients and the optimizer as they were, on every loader and also
    when it raises; on a loader whose dataset is not empty, when the
    model in evaluation mode and the loss function answer on the batches
    the iterator serves, it returns the running sum of the batches'
    losses times their sizes, all taken with the unchanged parameters,
    divided by the size of the dataset; on a loader whose dataset is
    empty it raises ZeroDivisionError. *)
Theorem validate_keeps_parameters (ld : DataLoader) (st : state) :
  params (snd (validate ld st)) = params st /\
  grads (snd (validate ld st)) = grads st /\
  opt (snd (validate ld st)) = opt st /\
  (dataset ld <> [] ->
   (forall b, In b (batches_of ld (rng st)) ->
              answers false (params st) b) ->
   fst (validate ld st) =
     Ok (Fdiv (running_sum (valid_losses_of (params st)
                              (batches_of ld (rng st))))
              (F_of_Z (len (dataset ld))))) /\
  (dataset ld = [] -> fst (validate ld st) = Raise ZeroDivisionError).
Proof.
  repeat split.
  - now apply (validate_preserves params).
  - now apply (validate_preserves grads).
  - now apply (validate_preserves opt).
  - intros Hne Ha. rewrite validate_run by assumption.
    cbn [fst]. now apply py_truediv_nonzero, len_nonzero.
  - apply validate_empty.
Qed.

End EpochFacts.

(** C4, as stated, fails on the empty loader: the division raises. *)
Lemma train_raises_on_empty :
  fst (train Demo.empty_loader Demo.start) = Raise ZeroDivisionError /\
  ~ (exists v, fst (train Demo.empty_loader Demo.start) = Ok v).
Proof.
  split; [reflexivity|]. intros [v H]. discriminate H.
Qed.

(** C5, as stated, fails on the empty loader: no mean loss is returned. *)
Lemma validate_raises_on_empty :
  fst (validate Demo.empty_loader Demo.start) = Raise ZeroDivisionError /\
  ~ (exists v, fst (validate Demo.empty_loader Demo.start) = Ok v).
Proof.
  split; [reflexivity|]. intros [v H]. discriminate H.
Qed.

Lemma train_returns_mean_loss_witness :
  dataset (Demo.loader true) <> [] /\
  fst (train (Demo.loader true) Demo.start) = Ok (1 # 2)%Q.
Proof.
  split; [discriminate|].
  destruct (train_returns_mean_loss (Demo.loader true) Demo.start)
    as [H _]; [discriminate | apply DemoFacts.loader_serves |].
  rewrite H. reflexivity.
Defined.

Lemma validate_keeps_parameters_witness :
  dataset (Demo.loader false) <> [] /\
  params (snd (validate (Demo.loader false) Demo.start)) = params Demo.start /\
  fst (validate (Demo.loader false) Demo.start) = Ok 0%Q.
Proof.
  split; [discriminate|].
  destruct (validate_keeps_parameters (Demo.loader false) Demo.start)
    as (Hp & _ & _ & Hloss & _).
  split; [exact Hp|].
  rewrite Hloss; [reflexivity | discriminate |].
  intros b Hb. now apply (DemoFacts.loader_serves false _ b Hb).
Defined.

(** ** The training loop *)

Section LoopFacts.
Context {B : Backend}.





(** *** The console is written by [print] alone *)

Lemma train_silent (ld : DataLoader) : preserves stdout (train ld).
Proof.
  unfold train.
  apply preserves_bind; [intros st; reflexivity|]. intros _.
  apply preserves_bind; [intros st; reflexivity|]. intros bs.
  apply preserves_bind; [|intros; apply preserves_lift].
  apply preserves_for_each. intros acc b. unfold train_body.
  apply preserves_bind; [intros st; reflexivity|]. intros _.
  apply preserves_bind; [auto with frame|]. intros out.
  apply preserves_bind; [auto with frame|]. intros loss.
  apply preserves_bind; [intros st; reflexivity|]. intros _.
  apply preserves_bind; [|auto with frame].
  intros st. unfold optimizer_step.
  destruct (grads st); [|reflexivity].
  now destruct (opt_step (opt st) (params st) g).
Qed.

Lemma validate_silent (ld : DataLoader) : preserves stdout (validate ld).
Proof. now apply validate_preserves. Qed.

Lemma get_accuracy_silent (ld : DataLoader) :
  preserves stdout (get_accuracy ld).
Proof.
  unfold get_accuracy, accuracy_counts.
  apply preserves_bind.
  - apply preserves_bind; [intros st; reflexivity|]. intros _.
    apply preserves_bind; [intros st; reflexivity|]. intros bs.
    apply preserves_for_each. intros [cp n] b. unfold accuracy_body.
    apply preserves_bind; [auto with frame|]. intros out.
    apply preserves_bind; [auto with frame|]. intros mx.
    apply preserves_bind; auto with frame.
  - intros [cp n]. apply preserves_bind; auto with frame.
Qed.

Variables train_loader valid_loader : DataLoader.
Variable print_every : Z.

Local Abbreviation body := (epoch_body train_loader valid_loader print_every).

(** *** One epoch *)

(** An epoch that completes has appended one loss to each history. *)
Lemma epoch_body_appends tl vl epoch st r st' :
  body (tl, vl) epoch st = (Ok r, st') ->
  exists x y, r = (tl ++ [x], vl ++ [y]).
Proof.
  unfold epoch_body. intros H.
  apply bind_ok_inv in H as (x & st1 & _ & H).
  apply bind_ok_inv in H as (y & st2 & _ & H).
  apply bind_ok_inv in H as (m & st3 & _ & H).
  apply bind_ok_inv in H as (u & st4 & _ & H).
  unfold ret in H. exists x, y. congruence.
Qed.

(** The lines an epoch writes: one, carrying the epoch's index, when
    the epoch completes and the interval predicate holds; none
    otherwise. *)
Lemma epoch_body_stdout hist epoch st :
  print_every <> 0 ->
  exists lines,
    stdout (snd (body hist epoch st)) = stdout st ++ lines /\
    map log_epoch lines =
      match fst (body hist epoch st) with
      | Ok _ => if logs_at print_every epoch then [epoch] else []
      | Raise _ => []
      end.
Proof.
  intros Hk. destruct hist as [tl vl].
  unfold epoch_body, logs_at, py_mod.
  destruct (Z.eqb_spec print_every 0) as [|_]; [contradiction|].
  unfold bind, lift.
  pose proof (train_silent train_loader st) as H1.
  destruct (train train_loader st) as [[x|err] st1]; cbn [fst snd] in *;
    [|exists []; rewrite app_nil_r; now split].
  pose proof (validate_silent valid_loader st1) as H2.
  destruct (validate valid_loader st1) as [[y|err] st2]; cbn [fst snd] in *;
    [|exists []; rewrite app_nil_r; split; [congruence | reflexivity]].
  destruct (epoch mod print_every =? print_every - 1).
  - pose proof (get_accuracy_silent train_loader st2) as H3.
    destruct (get_accuracy train_loader st2) as [[a|err] st3];
      cbn [fst snd] in *;
      [|exists []; rewrite app_nil_r; split; [congruence | reflexivity]].
    pose proof (get_accuracy_silent valid_loader st3) as H4.
    destruct (get_accuracy valid_loader st3) as [[a'|err] st4];
      cbn [fst snd] in *;
      [|exists []; rewrite app_nil_r; split; [congruence | reflexivity]].
    eexists [_]. cbn [print ret fst snd stdout].
    split; [rewrite H4, H3, H2, H1; reflexivity | reflexivity].
  - exists []. cbn [ret fst snd]. rewrite app_nil_r.
    split; [congruence | reflexivity].
Qed.


(** *** All epochs *)

Lemma loop_lengths (es : list Z) tl vl st r st' :
  for_each es (tl, vl) body st = (Ok r, st') ->
  length (fst r) = (length tl + length es)%nat /\
  length (snd r) = (length vl + length es)%nat.
Proof.
  revert tl vl st. induction es as [|e es IH]; intros tl vl st H.
  - cbn in H. unfold ret in H. inversion H; subst. cbn. lia.
  - cbn [for_each] in H.
    apply bind_ok_inv in H as (h & st1 & Hb & H).
    apply epoch_body_appends in Hb as (x & y & ->).
    apply IH in H. rewrite !length_app in H. cbn [length] in *. lia.
Qed.

Lemma loop_stdout (es : list Z) hist st :
  print_every <> 0 ->
  exists lines done,
    stdout (snd (for_each es hist body st)) = stdout st ++ lines /\
    (done <= length es)%nat /\
    (forall r, fst (for_each es hist body st) = Ok r -> done = length es) /\
    map log_epoch lines = filter (logs_at print_every) (firstn done es).
Proof.
  intros Hk. revert hist st. induction es as [|e es IH]; intros hist st.
  - exists [], 0%nat. cbn. rewrite app_nil_r. repeat split; lia.
  - cbn [for_each]. unfold bind.
    destruct (epoch_body_stdout hist e st Hk) as (l1 & Hout & Hl1).
    destruct (body hist e st) as [[h|err] st1]; cbn [fst snd] in *.
    + destruct (IH h st1) as (l2 & d & Hout2 & Hd & Hok & Hl2).
      exists (l1 ++ l2), (S d). cbn [length firstn filter].
      rewrite Hout2, Hout, app_assoc, map_app, Hl1, Hl2.
      split; [reflexivity|]. split; [lia|]. split.
      * intros r Hr. now rewrite (Hok r Hr).
      * now destruct (logs_at print_every e).
    + apply map_eq_nil in Hl1. subst l1.
      exists [], 0%nat. cbn [fst snd firstn filter map].
      split; [assumption|]. split; [lia|]. split; [|reflexivity].
      intros r Hr. discriminate Hr.
Qed.

(** *** Runs that complete *)

Lemma length_py_range (n : nat) : length (py_range (Z.of_nat n)) = n.
Proof. unfold py_range. now rewrite length_map, length_seq, Nat2Z.id. Qed.

Hypothesis train_set : dataset train_loader <> [].
Hypothesis valid_set : dataset valid_loader <> [].
Hypothesis train_contract : model_contract train_loader.
Hypothesis valid_contract : model_contract valid_loader.
Hypothesis train_accepted : serves_accepted train_loader.
Hypothesis valid_accepted : serves_accepted valid_loader.
Hypothesis interval : print_every <> 0.

Lemma epoch_body_returns hist epoch st :
  exists r st', body hist epoch st = (Ok r, st').
Proof.
  destruct hist as [tl vl]. unfold epoch_body, py_mod, bind, lift.
  destruct (Z.eqb_spec print_every 0) as [|_]; [contradiction|].
  rewrite train_run by (apply train_accepted).
  rewrite py_truediv_nonzero by (now apply len_nonzero).
  rewrite validate_run by (intros b Hb; now apply (valid_accepted _ b Hb)).
  rewrite py_truediv_nonzero by (now apply len_nonzero).
  destruct (_ =? _).
  - rewrite !get_accuracy_run by assumption.
    unfold print, ret. eauto.
  - unfold ret. eauto.
Qed.

Lemma loop_returns (es : list Z) hist st :
  exists r st', for_each es hist body st = (Ok r, st').
Proof.
  revert hist st. induction es as [|e es IH]; intros hist st.
  - cbn. unfold ret. eauto.
  - cbn [for_each]. unfold bind.
    destruct (epoch_body_returns hist e st) as (h & st1 & ->).
    apply IH.
Qed.

(** With datasets that are not empty, a model that keeps its contract,
    a loss function that answers on the batches served and an interval
    other than 0, the training loop returns. *)
Lemma training_loop_returns (epochs : Z) st :
  exists tl vl st',
    training_loop train_loader valid_loader epochs print_every st =
    (Ok (tl, vl), st').
Proof.
  unfold training_loop, bind.
  destruct (loop_returns (py_range epochs) ([], []) st)
    as ([tl vl] & st1 & ->).
  unfold plot_losses, ret. eauto.
Qed.

End LoopFacts.

Section LoopClaims.
Context {B : Backend}.
Variables train_loader valid_loader : DataLoader.

(** C6: an epoch that completes appends exactly one value to each
    history, and after a full run of the training loop over [N] epochs
    the two returned histories have length [N] each. *)
Theorem loss_histories_length (N : nat) (print_every : Z) (st : state)
    (train_losses valid_losses : list F) :
  fst (training_loop train_loader valid_loader (Z.of_nat N) print_every st)
    = Ok (train_losses, valid_losses) ->
  (forall tl vl epoch s r s',
      epoch_body train_loader valid_loader print_every (tl, vl) epoch s
        = (Ok r, s') ->
      exists x y, r = (tl ++ [x], vl ++ [y])) /\
  length train_losses = N /\ length valid_losses = N.
Proof.
  intros H. split; [intros; eapply epoch_body_appends; eauto|].
  destruct (training_loop _ _ _ _ st) as [r st'] eqn:E.
  cbn [fst] in H. subst r. unfold training_loop in E.
  apply bind_ok_inv in E as ([tl vl] & st1 & Hloop & E).
  apply bind_ok_inv in E as (u & st2 & _ & E).
  unfold ret in E. inversion E; subst.
  apply loop_lengths in Hloop. rewrite length_py_range in Hloop.
  exact Hloop.
Qed.


End LoopClaims.

Lemma loss_histories_length_witness :
  fst (training_loop (Demo.loader true) (Demo.loader false)
         (Z.of_nat 4) 2 Demo.start)
    = Ok ([(1 # 2)%Q; 1%Q; 1%Q; 1%Q], [1%Q; 1%Q; 1%Q; 1%Q]) /\
  length [(1 # 2)%Q; 1%Q; 1%Q; 1%Q] = 4%nat /\
  length [1%Q; 1%Q; 1%Q; 1%Q] = 4%nat.
Proof.
  split; [vm_compute; reflexivity|].
  apply (loss_histories_length (Demo.loader true) (Demo.loader false)
           4 2 Demo.start).
  vm_compute. reflexivity.
Defined.


(** ** The model *)

Module LeNetFacts.
Import LeNet.

(** *** Shapes through the layers *)

Lemma tabulate3_shape (c h w : nat) (f : nat -> nat -> nat -> R) :
  shape3 (tabulate3 c h w f) c h w.
Proof.
  unfold shape3, tabulate3. split; [now rewrite length_map, length_seq|].
  apply Forall_forall. intros ch Hch.
  apply in_map_iff in Hch as (o & <- & _).
  split; [now rewrite length_map, length_seq|].
  apply Forall_forall. intros row Hrow.
  apply in_map_iff in Hrow as (i & <- & _).
  now rewrite length_map, length_seq.
Qed.

Lemma shape3_height (x : tensor3) (c h w : nat) :
  shape3 x c h w -> (0 < c)%nat -> height x = h.
Proof.
  intros [Hc Hx] Hpos. unfold height.
  destruct x as [|ch x]; [cbn in Hc; lia|].
  inversion Hx as [|? ? [Hh _] _]; subst. reflexivity.
Qed.

Lemma shape3_width (x : tensor3) (c h w : nat) :
  shape3 x c h w -> (0 < c)%nat -> (0 < h)%nat -> width x = w.
Proof.
  intros [Hc Hx] Hpos Hh. unfold width.
  destruct x as [|ch x]; [cbn in Hc; lia|].
  inversion Hx as [|? ? [Hlen Hrows] _]; subst.
  destruct ch as [|row ch]; [cbn in Hh; lia|].
  inversion Hrows; subst. reflexivity.
Qed.

Lemma conv2d_shape (l : Conv2d) (x : tensor3) (h w : nat) :
  shape3 x (in_channels l) h w ->
  (0 < in_channels l)%nat -> (0 < h)%nat ->
  (kernel_size l <= h)%nat -> (kernel_size l <= w)%nat ->
  exists y, conv2d l x = Ok y /\
            shape3 y (out_channels l) (h - kernel_size l + 1)
                   (w - kernel_size l + 1).
Proof.
  intros Hx Hc Hh Hkh Hkw. unfold conv2d.
  rewrite (shape3_height x _ h w Hx Hc), (shape3_width x _ h w Hx Hc Hh).
  destruct Hx as [Hlen _]. rewrite Hlen, Nat.eqb_refl. cbn [negb].
  destruct (Nat.ltb_spec h (kernel_size l)); [lia|].
  destruct (Nat.ltb_spec w (kernel_size l)); [lia|]. cbn [orb].
  eexists; split; [reflexivity | apply tabulate3_shape].
Qed.

Lemma avg_pool2d_shape (k : nat) (x : tensor3) (c h w : nat) :
  shape3 x c h w -> (0 < c)%nat -> (0 < h)%nat ->
  (k <= h)%nat -> (k <= w)%nat ->
  exists y, avg_pool2d k x = Ok y /\ shape3 y c (h / k) (w / k).
Proof.
  intros Hx Hc Hh Hkh Hkw. unfold avg_pool2d.
  rewrite (shape3_height x c h w Hx Hc), (shape3_width x c h w Hx Hc Hh).
  destruct (Nat.ltb_spec h k); [lia|].
  destruct (Nat.ltb_spec w k); [lia|]. cbn [orb].
  eexists; split; [reflexivity|].
  destruct Hx as [<- _]. apply tabulate3_shape.
Qed.

Lemma tanh_shape3 (x : tensor3) (c h w : nat) :
  shape3 x c h w -> shape3 (map (map (map tanh)) x) c h w.
Proof.
  intros [Hlen Hx]. split; [now rewrite length_map|].
  apply Forall_map. eapply Forall_impl; [|exact Hx].
  intros ch [Hh Hrows]. split; [now rewrite length_map|].
  apply Forall_map. eapply Forall_impl; [|exact Hrows].
  intros row Hrow. now rewrite length_map.
Qed.

Lemma map_outcome_all {A C} (f : A -> outcome C) (Q : C -> Prop) (l : list A) :
  (forall x, In x l -> exists y, f x = Ok y /\ Q y) ->
  exists ys, map_outcome f l = Ok ys /\ length ys = length l /\ Forall Q ys.
Proof.
  induction l as [|x l IH]; intros H; cbn [map_outcome].
  - exists []. repeat split. constructor.
  - destruct (H x (in_eq _ _)) as (y & -> & Hy).
    destruct IH as (ys & -> & Hlen & Hys); [intros; apply H; now right|].
    exists (y :: ys). cbn [length]. repeat split; [congruence|].
    now constructor.
Qed.

Lemma sequential_step {L T} (apply : L -> T -> outcome T) l layers x y :
  apply l x = Ok y ->
  sequential apply (l :: layers) x = sequential apply layers y.
Proof. intros H. cbn [sequential]. now rewrite H. Qed.

Lemma apply4_conv (l : Conv2d) (x : tensor4) (n h w : nat) :
  shape4 x n (in_channels l) h w ->
  (0 < in_channels l)%nat -> (0 < h)%nat ->
  (kernel_size l <= h)%nat -> (kernel_size l <= w)%nat ->
  exists y, apply4 (Conv l) x = Ok y /\
            shape4 y n (out_channels l) (h - kernel_size l + 1)
                   (w - kernel_size l + 1).
Proof.
  intros [Hn Hx] Hc Hh Hkh Hkw. rewrite Forall_forall in Hx.
  destruct (map_outcome_all (conv2d l)
              (fun y => shape3 y (out_channels l) (h - kernel_size l + 1)
                               (w - kernel_size l + 1)) x)
    as (ys & E & Hlen & Hys).
  - intros s Hs. apply conv2d_shape; auto.
  - exists ys. split; [exact E|]. split; [congruence | exact Hys].
Qed.

Lemma apply4_pool (k : nat) (x : tensor4) (n c h w : nat) :
  shape4 x n c h w ->
  (0 < c)%nat -> (0 < h)%nat -> (k <= h)%nat -> (k <= w)%nat ->
  exists y, apply4 (AvgPool2d k) x = Ok y /\ shape4 y n c (h / k) (w / k).
Proof.
  intros [Hn Hx] Hc Hh Hkh Hkw. rewrite Forall_forall in Hx.
  destruct (map_outcome_all (avg_pool2d k)
              (fun y => shape3 y c (h / k) (w / k)) x)
    as (ys & E & Hlen & Hys).
  - intros s Hs. apply avg_pool2d_shape; auto.
  - exists ys. split; [exact E|]. split; [congruence | exact Hys].
Qed.

Lemma apply4_tanh (x : tensor4) (n c h w : nat) :
  shape4 x n c h w ->
  exists y, apply4 Tanh4 x = Ok y /\ shape4 y n c h w.
Proof.
  intros [Hn Hx]. eexists; split; [reflexivity|].
  split; [now rewrite length_map|].
  apply Forall_map. eapply Forall_impl; [|exact Hx].
  intros s Hs. now apply tanh_shape3.
Qed.

Lemma length_concat_uniform {A} (l : list (list A)) (w : nat) :
  Forall (fun row => length row = w) l ->
  length (concat l) = (length l * w)%nat.
Proof.
  induction 1 as [|row l Hrow _ IH]; [reflexivity|].
  cbn [concat length]. rewrite length_app, IH, Hrow. lia.
Qed.

Lemma flatten_sample (s : tensor3) (c h w : nat) :
  shape3 s c h w -> length (concat (concat s)) = (c * h * w)%nat.
Proof.
  intros [Hc Hs].
  assert (Hrows : Forall (fun row => length row = w) (concat s)).
  { apply Forall_concat. eapply Forall_impl; [|exact Hs]. now intros ch [_ H]. }
  rewrite (length_concat_uniform _ w Hrows).
  rewrite (length_concat_uniform s h).
  - now rewrite Hc.
  - eapply Forall_impl; [|exact Hs]. now intros ch [H _].
Qed.

Lemma flatten_shape (x : tensor4) (n c h w : nat) :
  shape4 x n c h w -> shape2 (flatten x) n (c * h * w).
Proof.
  intros [Hn Hx]. split; [unfold flatten; now rewrite length_map|].
  apply Forall_map. eapply Forall_impl; [|exact Hx].
  intros s Hs. now apply flatten_sample.
Qed.

Lemma apply2_linear (l : Linear) (x : matrix) (n : nat) :
  shape2 x n (in_features l) ->
  exists y, apply2 (Lin l) x = Ok y /\ shape2 y n (out_features l).
Proof.
  intros [Hn Hx]. rewrite Forall_forall in Hx.
  destruct (map_outcome_all (linear l)
              (fun y => length y = out_features l) x)
    as (ys & E & Hlen & Hys).
  - intros v Hv. unfold linear. rewrite (Hx v Hv), Nat.eqb_refl. cbn [negb].
    eexists; split; [reflexivity|]. now rewrite length_map, length_seq.
  - exists ys. split; [exact E|]. split; [congruence | exact Hys].
Qed.

Lemma apply2_tanh (x : matrix) (n f : nat) :
  shape2 x n f -> exists y, apply2 Tanh2 x = Ok y /\ shape2 y n f.
Proof.
  intros [Hn Hx]. eexists; split; [reflexivity|].
  split; [now rewrite length_map|].
  apply Forall_map. eapply Forall_impl; [|exact Hx].
  intros row Hrow. now rewrite length_map.
Qed.

(** *** Softmax *)

Local Open Scope R_scope.

Lemma total_exp_nonneg (z : list R) : 0 <= total (map exp z).
Proof.
  induction z as [|v z IH]; cbn [map total fold_right]; [lra|].
  pose proof (exp_pos v). fold (total (map exp z)). lra.
Qed.

Lemma total_exp_pos (z : list R) : z <> [] -> 0 < total (map exp z).
Proof.
  destruct z as [|v z]; [contradiction|]. intros _.
  cbn [map total fold_right]. fold (total (map exp z)).
  pose proof (exp_pos v). pose proof (total_exp_nonneg z). lra.
Qed.

Lemma total_map_div (f : R -> R) (s : R) (l : list R) :
  total (map (fun v => f v / s) l) = total (map f l) / s.
Proof.
  induction l as [|v l IH]; cbn [map total fold_right].
  - unfold Rdiv. now rewrite Rmult_0_l.
  - fold (total (map (fun v => f v / s) l)). fold (total (map f l)).
    rewrite IH. unfold Rdiv. now rewrite Rmult_plus_distr_r.
Qed.

Lemma softmax_row_length (z : list R) : length (softmax_row z) = length z.
Proof. unfold softmax_row. now rewrite length_map. Qed.

Lemma softmax_row_total (z : list R) : z <> [] -> total (softmax_row z) = 1.
Proof.
  intros Hz. unfold softmax_row. rewrite total_map_div.
  pose proof (total_exp_pos z Hz). apply Rdiv_diag. lra.
Qed.

Lemma softmax_row_pos (z : list R) (p : R) : In p (softmax_row z) -> 0 < p.
Proof.
  unfold softmax_row. intros H. apply in_map_iff in H as (v & <- & Hv).
  apply Rdiv_lt_0_compat; [apply exp_pos|].
  apply total_exp_pos. intros E. now rewrite E in Hv.
Qed.

Lemma softmax_shape (t : matrix) (n f : nat) :
  shape2 t n f -> shape2 (softmax t) n f.
Proof.
  intros [Hn Ht]. split; [unfold softmax; now rewrite length_map|].
  apply Forall_map. eapply Forall_impl; [|exact Ht].
  intros row Hrow. now rewrite softmax_row_length.
Qed.

(** *** The forward pass *)

(** The tensors' shapes along the forward pass, for any number of
    classes: 32x32 -> 6x28x28 -> 6x14x14 -> 16x10x10 -> 16x5x5 ->
    120x1x1 -> 120 -> 84 -> classes. *)
Lemma forward_run (k : nat) (w : weights) (x : tensor4) (n : nat) :
  shape4 x n 1 IMG_SIZE IMG_SIZE ->
  exists logits,
    forward (LeNet5_init k w) x = Ok (logits, softmax logits) /\
    shape2 logits n k.
Proof.
  intros Hx. unfold forward.
  cbn [feature_extractor classifier LeNet5_init].
  destruct (apply4_conv
              {| in_channels := 1; out_channels := 6; kernel_size := 5;
                 conv_weight := conv1_w w; conv_bias := conv1_b w |}
              x n 32 32 Hx) as (x1 & E1 & S1);
    cbn [in_channels kernel_size]; try lia.
  rewrite (sequential_step _ _ _ _ _ E1). clear E1.
  cbn [out_channels kernel_size] in S1.
  destruct (apply4_tanh x1 n 6 28 28 S1) as (x2 & E2 & S2).
  rewrite (sequential_step _ _ _ _ _ E2). clear E2.
  destruct (apply4_pool 2 x2 n 6 28 28 S2) as (x3 & E3 & S3); try lia.
  rewrite (sequential_step _ _ _ _ _ E3). clear E3.
  change (28 / 2)%nat with 14%nat in S3.
  destruct (apply4_conv
              {| in_channels := 6; out_channels := 16; kernel_size := 5;
                 conv_weight := conv2_w w; conv_bias := conv2_b w |}
              x3 n 14 14 S3) as (x4 & E4 & S4);
    cbn [in_channels kernel_size]; try lia.
  rewrite (sequential_step _ _ _ _ _ E4). clear E4.
  cbn [out_channels kernel_size] in S4.
  destruct (apply4_tanh x4 n 16 10 10 S4) as (x5 & E5 & S5).
  rewrite (sequential_step _ _ _ _ _ E5). clear E5.
  destruct (apply4_pool 2 x5 n 16 10 10 S5) as (x6 & E6 & S6); try lia.
  rewrite (sequential_step _ _ _ _ _ E6). clear E6.
  change (10 / 2)%nat with 5%nat in S6.
  destruct (apply4_conv
              {| in_channels := 16; out_channels := 120; kernel_size := 5;
                 conv_weight := conv3_w w; conv_bias := conv3_b w |}
              x6 n 5 5 S6) as (x7 & E7 & S7);
    cbn [in_channels kernel_size]; try lia.
  rewrite (sequential_step _ _ _ _ _ E7). clear E7.
  cbn [out_channels kernel_size] in S7.
  destruct (apply4_tanh x7 n 120 1 1 S7) as (x8 & E8 & S8).
  rewrite (sequential_step _ _ _ _ _ E8). clear E8.
  change (sequential apply4 [] x8) with (Ok x8). cbv beta iota zeta.
  pose proof (flatten_shape x8 n 120 1 1 S8) as S9.
  change (120 * 1 * 1)%nat with 120%nat in S9.
  destruct (apply2_linear
              {| in_features := 120; out_features := 84;
                 lin_weight := fc1_w w; lin_bias := fc1_b w |}
              (flatten x8) n S9) as (v1 & L1 & T1).
  rewrite (sequential_step _ _ _ _ _ L1). clear L1.
  cbn [out_features] in T1.
  destruct (apply2_tanh v1 n 84 T1) as (v2 & L2 & T2).
  rewrite (sequential_step _ _ _ _ _ L2). clear L2.
  destruct (apply2_linear
              {| in_features := 84; out_features := k;
                 lin_weight := fc2_w w; lin_bias := fc2_b w |}
              v2 n T2) as (logits & L3 & T3).
  rewrite (sequential_step _ _ _ _ _ L3). clear L3.
  change (sequential apply2 [] logits) with (Ok logits). cbv beta iota zeta.
  exists logits. split; [reflexivity | exact T3].
Qed.

Lemma forward_probs (self : LeNet5) (x : tensor4) (logits probs : matrix) :
  forward self x = Ok (logits, probs) -> probs = softmax logits.
Proof.
  unfold forward.
  destruct (sequential apply4 _ x) as [y|e]; [|discriminate].
  destruct (sequential apply2 _ (flatten y)) as [l|e]; [|discriminate].
  intros H. inversion H; subst. reflexivity.
Qed.

(** C1: on every batch of [N] inputs of one channel of 32x32 the
    forward pass returns logits and probabilities of [N] rows of 10
    entries each; the probabilities are the row-wise softmax of the
    logits, none is negative, and every row adds up to 1. *)
Theorem forward_logits_and_probs (w : weights) (x : tensor4) (N : nat) :
  shape4 x N 1 32 32 ->
  exists logits probs,
    forward (LeNet5_init N_CLASSES w) x = Ok (logits, probs) /\
    shape2 logits N 10 /\ shape2 probs N 10 /\
    probs = map (fun z => map (fun v => exp v / total (map exp z)) z) logits /\
    (forall row, In row probs ->
       (forall p, In p row -> 0 <= p) /\ total row = 1).
Proof.
  intros Hx.
  destruct (forward_run N_CLASSES w x N Hx) as (logits & Hf & Hl).
  exists logits, (softmax logits).
  split; [exact Hf|]. split; [exact Hl|].
  split; [now apply softmax_shape|]. split; [reflexivity|].
  intros row Hrow. unfold softmax in Hrow.
  apply in_map_iff in Hrow as (z & <- & Hz). split.
  - intros p Hp. apply Rlt_le. eapply softmax_row_pos; eauto.
  - apply softmax_row_total.
    destruct Hl as [_ Hrows]. rewrite Forall_forall in Hrows.
    specialize (Hrows z Hz). intros E. rewrite E in Hrows. discriminate.
Qed.

Lemma blank_batch_shape (n : nat) : shape4 (repeat blank n) n 1 32 32.
Proof.
  split; [apply repeat_length|].
  apply Forall_forall. intros s Hs. apply repeat_spec in Hs. subst s.
  unfold blank. split; [reflexivity|].
  constructor; [|constructor]. split; [apply repeat_length|].
  apply Forall_forall. intros row Hrow. apply repeat_spec in Hrow.
  subst row. apply repeat_length.
Qed.

End LeNetFacts.

Lemma forward_logits_and_probs_witness :
  LeNet.shape4 (repeat LeNet.blank 2) 2 1 32 32 /\
  exists logits probs,
    LeNet.forward (LeNet.LeNet5_init N_CLASSES LeNet.zero_weights)
      (repeat LeNet.blank 2) = Ok (logits, probs) /\
    LeNet.shape2 logits 2 10 /\ LeNet.shape2 probs 2 10.
Proof.
  split; [apply LeNetFacts.blank_batch_shape|].
  destruct (LeNetFacts.forward_logits_and_probs LeNet.zero_weights
              (repeat LeNet.blank 2) 2 (LeNetFacts.blank_batch_shape 2))
    as (logits & probs & H1 & H2 & H3 & _).
  exists logits, probs. repeat split; assumption || apply H2 || apply H3.
Defined.

(** ** The predicted class under an order-preserving change of scores *)

Section ArgmaxFacts.
Context {B : Backend}.

Lemma max_from_order_iso (f : F -> F) :
  (forall a b, Fltb (f a) (f b) = Fltb a b) ->
  forall row best bi i,
    snd (max_from (f best) bi i (map f row)) = snd (max_from best bi i row).
Proof.
  intros Hf. induction row as [|x row IH]; intros best bi i; [reflexivity|].
  cbn [map max_from]. rewrite Hf.
  destruct (Fltb best x); apply IH.
Qed.

Lemma for_each_ext {A C} (l : list A) (body1 body2 : C -> A -> M C) :
  (forall acc x st, body1 acc x st = body2 acc x st) ->
  forall acc st, for_each l acc body1 st = for_each l acc body2 st.
Proof.
  intros H. induction l as [|x l IH]; intros acc st; [reflexivity|].
  cbn [for_each]. unfold bind. rewrite H.
  destruct (body2 acc x st) as [[a|e] st1]; [apply IH | reflexivity].
Qed.

End ArgmaxFacts.

Section LeNetAccuracy.
Variables gradient optimizer_state generator : Type.
Variable loss_fn : LeNet.matrix -> list Z -> outcome R.
Variable autograd : bool -> LeNet.weights -> LeNet.tensor4 -> list Z -> gradient.
Variable accumulate : gradient -> gradient -> gradient.
Variable step :
  optimizer_state -> LeNet.weights -> gradient -> LeNet.weights * optimizer_state.
Variable draw : generator -> nat -> nat * generator.
Variable seed_draw : generator -> Z * generator.
Variable seeded : Z -> generator.

Local Abbreviation LB :=
  (lenet_backend gradient optimizer_state generator loss_fn autograd
     accumulate step draw seed_draw seeded).

Local Open Scope R_scope.

Lemma Rltb_scale (s a b : R) :
  0 < s -> LeNet.Rltb (exp a / s) (exp b / s) = LeNet.Rltb a b.
Proof.
  intros Hs. unfold LeNet.Rltb.
  assert (Hi : 0 < / s) by now apply Rinv_0_lt_compat.
  destruct (Rlt_dec a b) as [Hab|Hab];
    destruct (Rlt_dec (exp a / s) (exp b / s)) as [He|He]; try reflexivity.
  - exfalso. apply He. unfold Rdiv.
    apply Rmult_lt_compat_r; [exact Hi | now apply exp_increasing].
  - exfalso. apply Hab. apply exp_lt_inv.
    unfold Rdiv in He. eapply Rmult_lt_reg_r; eauto.
Qed.

Lemma max_row_softmax (z : list R) :
  match max_row (B := LB) z with
  | Ok (_, i) =>
      exists v, max_row (B := LB) (LeNet.softmax_row z) = Ok (v, i)
  | Raise e => max_row (B := LB) (LeNet.softmax_row z) = Raise e
  end.
Proof.
  destruct z as [|x z]; [reflexivity|].
  cbn [max_row].
  pose proof (LeNetFacts.total_exp_pos (x :: z)) as Hs.
  set (s := LeNet.total (map exp (x :: z))) in *.
  assert (Hpos : 0 < s) by (apply Hs; discriminate).
  change (LeNet.softmax_row (x :: z))
    with (exp x / s :: map (fun v => exp v / s) z).
  cbn [max_row].
  assert (H : snd (max_from (B := LB) (exp x / s) 0 1
                     (map (fun v => exp v / s) z)) =
              snd (max_from (B := LB) x 0 1 z))
    by exact (max_from_order_iso (B := LB) (fun v => exp v / s)
                (fun a b => Rltb_scale s a b Hpos) z x 0%Z 1%Z).
  destruct (max_from (B := LB) x 0 1 z) as [v i].
  destruct (max_from (B := LB) (exp x / s) 0 1 (map (fun v => exp v / s) z))
    as [v' i'].
  cbn [snd] in H. subst i'. now exists v'.
Qed.

Lemma torch_max_dim1_softmax (t : LeNet.matrix) :
  match torch_max_dim1 (B := LB) t with
  | Ok (_, ixs) =>
      exists vs, torch_max_dim1 (B := LB) (LeNet.softmax t) = Ok (vs, ixs)
  | Raise e => torch_max_dim1 (B := LB) (LeNet.softmax t) = Raise e
  end.
Proof.
  induction t as [|z t IH]; [now exists []|].
  cbn [torch_max_dim1 LeNet.softmax map].
  fold (LeNet.softmax t).
  pose proof (max_row_softmax z) as Hz.
  destruct (max_row (B := LB) z) as [[v i]|e].
  - destruct Hz as [v' ->].
    destruct (torch_max_dim1 (B := LB) t) as [[vs ixs]|e].
    + destruct IH as [vs' ->]. now exists (v' :: vs').
    + now rewrite IH.
  - now rewrite Hz.
Qed.

Lemma predicted_class_softmax (z : list R) :
  predicted_class (B := LB) (LeNet.softmax_row z) =
  predicted_class (B := LB) z.
Proof.
  destruct z as [|x z]; [reflexivity|].
  pose proof (LeNetFacts.total_exp_pos (x :: z)) as Hs.
  set (s := LeNet.total (map exp (x :: z))) in *.
  assert (Hpos : 0 < s) by (apply Hs; discriminate).
  change (snd (max_from (B := LB) (exp x / s) 0 1
                 (map (fun v => exp v / s) z)) =
          snd (max_from (B := LB) x 0 1 z)).
  exact (max_from_order_iso (B := LB) (fun v => exp v / s)
           (fun a b => Rltb_scale s a b Hpos) z x 0%Z 1%Z).
Qed.

(** [torch.max] returns the largest entry of a row and the first index
    that holds it. *)
Lemma max_from_first_maximum (row : list R) (best : R) (bi i : Z) :
  (forall x, In x row -> x <= fst (max_from (B := LB) best bi i row)) /\
  best <= fst (max_from (B := LB) best bi i row) /\
  ((snd (max_from (B := LB) best bi i row) = bi /\
    fst (max_from (B := LB) best bi i row) = best) \/
   (exists j, (j < length row)%nat /\
      snd (max_from (B := LB) best bi i row) = (i + Z.of_nat j)%Z /\
      fst (max_from (B := LB) best bi i row) = nth j row 0 /\
      best < nth j row 0 /\
      forall j', (j' < j)%nat -> nth j' row 0 < nth j row 0)).
Proof.
  revert best bi i. induction row as [|x row IH]; intros best bi i.
  - cbn. split; [contradiction|]. split; [lra | now left].
  - cbn [max_from]. change (Fltb (Backend := LB)) with LeNet.Rltb.
    unfold LeNet.Rltb. destruct (Rlt_dec best x) as [Hlt|Hge].
    + destruct (IH x i (i + 1)%Z) as (Hall & Hx & Hcase).
      split; [intros y [<-|Hy]; [exact Hx | now apply Hall]|].
      split; [lra|]. right.
      destruct Hcase as [[Hi Hv]|(j & Hj & Hi & Hv & Hbest & Hfirst)].
      * exists 0%nat. cbn [length nth]. rewrite Hi, Hv.
        repeat split; try lia; lra.
      * exists (S j). cbn [length nth]. rewrite Hi, Hv.
        repeat split; try lia; try lra.
        intros [|j'] Hj'; [exact Hbest | apply Hfirst; lia].
    + destruct (IH best bi (i + 1)%Z) as (Hall & Hb & Hcase).
      split; [intros y [<-|Hy]; [lra | now apply Hall]|].
      split; [exact Hb|].
      destruct Hcase as [Hsame|(j & Hj & Hi & Hv & Hbest & Hfirst)];
        [now left | right].
      exists (S j). cbn [length nth]. rewrite Hi, Hv.
      repeat split; try lia; try lra.
      intros [|j'] Hj'; [lra | apply Hfirst; lia].
Qed.

Lemma predicted_class_first_maximum (row : list R) :
  row <> [] ->
  exists k,
    predicted_class (B := LB) row = Z.of_nat k /\
    (k < length row)%nat /\
    (forall j, (j < length row)%nat -> nth j row 0 <= nth k row 0) /\
    (forall j, (j < k)%nat -> nth j row 0 < nth k row 0).
Proof.
  destruct row as [|x row]; [contradiction|]. intros _.
  cbn [predicted_class].
  destruct (max_from_first_maximum row x 0%Z 1%Z) as (Hall & Hx & Hcase).
  destruct Hcase as [[Hi Hv]|(j & Hj & Hi & Hv & Hbest & Hfirst)].
  - exists 0%nat. rewrite Hi. cbn [length nth].
    split; [reflexivity|]. split; [lia|]. split; [|intros j Hj; lia].
    intros [|j] Hj; [lra|]. rewrite <- Hv. apply Hall, nth_In. lia.
  - exists (S j). rewrite Hi. cbn [length nth].
    split; [lia|]. split; [lia|]. split.
    + intros [|j'] Hj'; [lra|]. rewrite <- Hv. apply Hall, nth_In. lia.
    + intros [|j'] Hj'; [exact Hbest | apply Hfirst; lia].
Qed.

(** The model keeps its contract on every loader whose images have one
    channel of 32x32. *)
Lemma lenet_contract (ld : DataLoader (B := LB)) :
  Forall (fun s => LeNet.shape3 (fst s) 1 32 32) (dataset ld) ->
  model_contract ld.
Proof.
  intros Hd mode w xs Hincl.
  assert (Hx : LeNet.shape4 xs (length xs) 1 32 32).
  { split; [reflexivity|]. apply Forall_forall. intros s Hs.
    apply Hincl, in_map_iff in Hs as ([s' y] & <- & Hin).
    rewrite Forall_forall in Hd. exact (Hd _ Hin). }
  destruct (LeNetFacts.forward_run N_CLASSES w xs (length xs) Hx)
    as (logits & Hf & Hl).
  exists logits, (LeNet.softmax logits).
  destruct (LeNetFacts.softmax_shape _ _ _ Hl) as [Hn Hrows].
  destruct Hl as [Hn' Hrows'].
  repeat split; assumption.
Qed.

Lemma accuracy_body_logits_eq acc (b : batch (B := LB)) st :
  accuracy_body_logits acc b st = accuracy_body acc b st.
Proof.
  destruct acc as [cp n].
  unfold accuracy_body_logits, accuracy_body, bind, model_call, lift.
  destruct (forward (Backend := LB) (training st) (params st) (X b))
    as [[logits probs]|e] eqn:Hf; [|reflexivity].
  cbn [fst snd].
  apply LeNetFacts.forward_probs in Hf. subst probs.
  pose proof (torch_max_dim1_softmax logits) as H.
  destruct (torch_max_dim1 (B := LB) logits) as [[vs ixs]|e].
  - destruct H as [vs' ->]. reflexivity.
  - now rewrite H.
Qed.

(** Over the real numbers the softmax is strictly increasing row-wise:
    the class [torch.max] picks in a row of probabilities is the class
    it picks in the row of logits, and the accuracy metric computed from
    the logits is the one computed from the probabilities.  The script
    computes in single precision, where rounding can make two
    probabilities equal whose logits differ, and [torch.max] then picks
    the first of them: the statement is one of exact arithmetic only. *)
Lemma exact_softmax_keeps_argmax :
  (forall w x logits probs,
      LeNet.forward (LeNet.LeNet5_init N_CLASSES w) x = Ok (logits, probs) ->
      map (predicted_class (B := LB)) probs =
      map (predicted_class (B := LB)) logits) /\
  (forall (ld : DataLoader (B := LB)) st,
      get_accuracy_logits ld st = get_accuracy ld st).
Proof.
  split.
  - intros w x logits probs Hf.
    apply LeNetFacts.forward_probs in Hf. subst probs.
    unfold LeNet.softmax. rewrite map_map.
    apply map_ext. intros z. apply predicted_class_softmax.
  - intros ld st.
    unfold get_accuracy_logits, get_accuracy, accuracy_counts, bind.
    destruct (model_eval st) as [[u|e] st1]; [|reflexivity].
    destruct (iter_loader ld st1) as [[bs|e] st2]; [|reflexivity].
    rewrite (for_each_ext bs accuracy_body_logits accuracy_body
               accuracy_body_logits_eq).
    reflexivity.
Qed.

End LeNetAccuracy.

(** ** What the routines leave alone, and the mode they leave *)

Section RoutineFrames.
Context {B : Backend}.

Lemma get_accuracy_preserves {T} (f : state -> T) (ld : DataLoader) :
  (forall st mode g,
      f {| params := params st; grads := grads st; training := mode;
           opt := opt st; rng := g; stdout := stdout st;
           figures := figures st |} = f st) ->
  preserves f (get_accuracy ld).
Proof.
  intros Hf. unfold get_accuracy, accuracy_counts.
  apply preserves_bind.
  - apply preserves_bind; [intros st; apply Hf|]. intros _.
    apply preserves_bind; [intros st; apply Hf|]. intros bs.
    apply preserves_for_each. intros [cp n] b. unfold accuracy_body.
    apply preserves_bind; [auto with frame|]. intros out.
    apply preserves_bind; [auto with frame|]. intros mx.
    apply preserves_bind; auto with frame.
  - intros [cp n]. apply preserves_bind; auto with frame.
Qed.

Lemma train_preserves {T} (f : state -> T) (ld : DataLoader) :
  (forall st p g m o r,
      f {| params := p; grads := g; training := m; opt := o; rng := r;
           stdout := stdout st; figures := figures st |} = f st) ->
  preserves f (train ld).
Proof.
  intros Hf. unfold train.
  apply preserves_bind; [intros st; apply Hf|]. intros _.
  apply preserves_bind; [intros st; apply Hf|]. intros bs.
  apply preserves_bind; [|intros; apply preserves_lift].
  apply preserves_for_each. intros acc b. unfold train_body.
  apply preserves_bind; [intros st; apply Hf|]. intros _.
  apply preserves_bind; [auto with frame|]. intros out.
  apply preserves_bind; [auto with frame|]. intros loss.
  apply preserves_bind; [intros st; apply Hf|]. intros _.
  apply preserves_bind; [|auto with frame].
  intros st. unfold optimizer_step.
  destruct (grads st); [|reflexivity].
  destruct (opt_step (opt st) (params st) g). apply Hf.
Qed.

(** The batches of [train] are processed with the mode flag as
    [model.train()] set it. *)
Lemma train_loop_mode (bs : list batch) (rl : F) :
  preserves training (for_each bs rl train_body).
Proof.
  apply preserves_for_each. intros acc b. unfold train_body.
  apply preserves_bind; [intros st; reflexivity|]. intros _.
  apply preserves_bind; [auto with frame|]. intros out.
  apply preserves_bind; [auto with frame|]. intros loss.
  apply preserves_bind; [intros st; reflexivity|]. intros _.
  apply preserves_bind; [|auto with frame].
  intros st. unfold optimizer_step.
  destruct (grads st); [|reflexivity].
  now destruct (opt_step (opt st) (params st) g).
Qed.

(** X1: [get_accuracy] changes neither the parameters, nor the gradients,
    nor the optimizer, nor the console, nor the figures, whether it
    returns or raises. *)
Theorem get_accuracy_changes_nothing (ld : DataLoader) (st : state) :
  params (snd (get_accuracy ld st)) = params st /\
  grads (snd (get_accuracy ld st)) = grads st /\
  opt (snd (get_accuracy ld st)) = opt st /\
  stdout (snd (get_accuracy ld st)) = stdout st /\
  figures (snd (get_accuracy ld st)) = figures st.
Proof.
  repeat split.
  - now apply (get_accuracy_preserves params).
  - now apply (get_accuracy_preserves grads).
  - now apply (get_accuracy_preserves opt).
  - now apply (get_accuracy_preserves stdout).
  - now apply (get_accuracy_preserves figures).
Qed.

(** X2: Whether they return or raise, [train] leaves the model in training
    mode, and [validate] and [get_accuracy] leave it in inference mode. *)
Theorem routines_leave_mode (ld : DataLoader) (st : state) :
  training (snd (train ld st)) = true /\
  training (snd (validate ld st)) = false /\
  training (snd (get_accuracy ld st)) = false.
Proof.
  assert (Ht : preserves training
                 (bind (iter_loader ld) (fun bs =>
                    bind (for_each bs (F_of_Z 0) train_body) (fun rl =>
                      lift (py_truediv rl (len (dataset ld))))))).
  { apply preserves_bind; [intros s; reflexivity|]. intros bs.
    apply preserves_bind; [apply train_loop_mode|].
    intros; apply preserves_lift. }
  assert (Hv : preserves training
                 (bind (iter_loader ld) (fun bs =>
                    bind (for_each bs (F_of_Z 0) validate_body) (fun rl =>
                      lift (py_truediv rl (len (dataset ld))))))).
  { apply preserves_bind; [intros s; reflexivity|]. intros bs.
    apply preserves_bind; [|intros; apply preserves_lift].
    apply preserves_for_each. intros acc b. unfold validate_body.
    apply preserves_bind; auto with frame. intros y.
    apply preserves_bind; auto with frame. }
  assert (Ha : preserves training
                 (bind (iter_loader ld) (fun bs =>
                    for_each bs (PyInt 0, 0) accuracy_body))).
  { apply preserves_bind; [intros s; reflexivity|]. intros bs.
    apply preserves_for_each. intros [cp n] b. unfold accuracy_body.
    apply preserves_bind; [auto with frame|]. intros out.
    apply preserves_bind; [auto with frame|]. intros mx.
    apply preserves_bind; auto with frame. }
  split; [|split].
  - unfold train, bind at 1, model_train. exact (Ht _).
  - unfold validate, bind at 1, model_eval. exact (Hv _).
  - unfold get_accuracy, accuracy_counts, bind at 1 2, model_eval.
    match goal with
    | |- context [bind (iter_loader ld) ?k ?s] =>
        pose proof (Ha s) as H; cbn [training] in H;
        destruct (bind (iter_loader ld) k s) as [[[cp n]|e] st2]
    end; cbn [snd] in *; [|exact H].
    rewrite <- H.
    apply (preserves_bind training (lift (py_float cp))
             (fun c => ret (tensor_div c n))); auto with frame.
Qed.

End RoutineFrames.

(** ** The training loop at its edges *)

Section LoopEdges.
Context {B : Backend}.
Variables train_loader valid_loader : DataLoader.

Lemma epoch_body_split print_every tl vl epoch st :
  epoch_body train_loader valid_loader print_every (tl, vl) epoch st =
  bind (train train_loader)
    (after_train train_loader valid_loader print_every tl vl epoch) st.
Proof. reflexivity. Qed.

Lemma after_train_preserves {T} (f : state -> T) print_every tl vl epoch x :
  (forall st mode g,
      f {| params := params st; grads := grads st; training := mode;
           opt := opt st; rng := g; stdout := stdout st;
           figures := figures st |} = f st) ->
  (forall st l,
      f {| params := params st; grads := grads st; training := training st;
           opt := opt st; rng := rng st; stdout := stdout st ++ [l];
           figures := figures st |} = f st) ->
  preserves f (after_train train_loader valid_loader print_every tl vl epoch x).
Proof.
  intros Hf Hp. unfold after_train.
  apply preserves_bind; [now apply validate_preserves|]. intros y.
  apply preserves_bind; [apply preserves_lift|]. intros m.
  apply preserves_bind; [|intros; apply preserves_ret].
  destruct (m =? print_every - 1); [|apply preserves_ret].
  apply preserves_bind; [now apply get_accuracy_preserves|]. intros a.
  apply preserves_bind; [now apply get_accuracy_preserves|]. intros a'.
  intros st. apply Hp.
Qed.

(** X3: Within an epoch only [train] changes the parameters and the
    optimizer: after the epoch's body, completed or not, they are as the
    call to [train] left them. *)
Theorem epoch_changes_parameters_in_train_only print_every hist epoch st :
  params (snd (epoch_body train_loader valid_loader print_every hist epoch st))
    = params (snd (train train_loader st)) /\
  opt (snd (epoch_body train_loader valid_loader print_every hist epoch st))
    = opt (snd (train train_loader st)).
Proof.
  destruct hist as [tl vl]. rewrite epoch_body_split. unfold bind.
  destruct (train train_loader st) as [[x|e] st1]; cbn [snd];
    [|split; reflexivity].
  split.
  - now apply (after_train_preserves params).
  - now apply (after_train_preserves opt).
Qed.

(** *** No epochs *)

(** X4: With an epoch count of 0 or less the loop body never runs: the loop
    returns two empty histories, plots them, and changes nothing else. *)
Theorem training_loop_without_epochs (epochs print_every : Z) (st : state) :
  epochs <= 0 ->
  training_loop train_loader valid_loader epochs print_every st =
  (Ok ([], []),
   {| params := params st; grads := grads st; training := training st;
      opt := opt st; rng := rng st; stdout := stdout st;
      figures := figures st ++ [([], [])] |}).
Proof.
  intros H. unfold training_loop, py_range.
  replace (Z.to_nat epochs) with 0%nat by lia. reflexivity.
Qed.

(** *** The interval *)

Lemma py_range_pos (epochs : Z) :
  0 < epochs ->
  py_range epochs = 0 :: map Z.of_nat (seq 1 (Z.to_nat epochs - 1)).
Proof.
  intros H. unfold py_range.
  destruct (Z.to_nat epochs) as [|n] eqn:E; [lia|].
  replace (S n - 1)%nat with n by lia. reflexivity.
Qed.

(** X5: With an interval of 0 and at least one epoch, when the first
    call to [train] and the first call to [validate] return, the loop
    raises on [epoch % print_every] right after them: no history is
    returned, nothing is printed or plotted, and the parameters are those
    the first training epoch left. *)
Theorem training_loop_zero_interval (epochs : Z) (st : state) (x y : F) :
  0 < epochs ->
  fst (train train_loader st) = Ok x ->
  fst (validate valid_loader (snd (train train_loader st))) = Ok y ->
  training_loop train_loader valid_loader epochs 0 st =
    (Raise ZeroDivisionError,
     snd (validate valid_loader (snd (train train_loader st)))) /\
  stdout (snd (validate valid_loader (snd (train train_loader st))))
    = stdout st /\
  figures (snd (validate valid_loader (snd (train train_loader st))))
    = figures st.
Proof.
  intros He Ht Hv.
  split; [|split;
           [rewrite (validate_preserves stdout), (train_preserves stdout)
           |rewrite (validate_preserves figures), (train_preserves figures)];
           reflexivity].
  unfold training_loop.
  rewrite (py_range_pos epochs He). cbn [for_each].
  unfold bind at 1 2. rewrite epoch_body_split. unfold bind at 1.
  destruct (train train_loader st) as [[x'|e] st1]; cbn [fst snd] in *;
    [|discriminate Ht].
  unfold after_train, bind at 1.
  destruct (validate valid_loader st1) as [[y'|e] st2]; cbn [fst snd] in *;
    [|discriminate Hv].
  reflexivity.
Qed.

Lemma logs_at_negative (k e : Z) : k < 0 -> logs_at k e = false.
Proof.
  intros Hk. unfold logs_at. apply Z.eqb_neq.
  pose proof (Z.mod_neg_bound e k Hk). lia.
Qed.

(** X6: With a negative interval the loop never prints, whatever the number
    of epochs. *)
Theorem training_loop_negative_interval (N : nat) (k : Z) (st : state) :
  k < 0 ->
  stdout (snd (training_loop train_loader valid_loader (Z.of_nat N) k st))
    = stdout st.
Proof.
  intros Hk. assert (Hk0 : k <> 0) by lia.
  destruct (loop_stdout train_loader valid_loader k
              (py_range (Z.of_nat N)) ([], []) st Hk0)
    as (lines & done & Hout & _ & _ & Hl).
  assert (Hnil : lines = []).
  { apply (map_eq_nil log_epoch). rewrite Hl. clear Hl.
    induction (firstn done (py_range (Z.of_nat N))) as [|e l IH];
      [reflexivity|].
    cbn [filter]. rewrite logs_at_negative by assumption. exact IH. }
  subst lines. rewrite app_nil_r in Hout.
  unfold training_loop, bind.
  destruct (for_each _ _ _ st) as [[[tl vl]|err] st1]; exact Hout.
Qed.

(** *** The figure *)

Lemma epoch_body_keeps_figures print_every hist epoch :
  preserves figures
    (epoch_body train_loader valid_loader print_every hist epoch).
Proof.
  destruct hist as [tl vl]. intros st. rewrite epoch_body_split.
  revert st. apply preserves_bind.
  - now apply train_preserves.
  - intros x. now apply after_train_preserves.
Qed.

(** X7: A loop that returns has drawn exactly one figure, of the two
    histories it returns; a loop that raises has drawn none. *)
Theorem training_loop_plots_once (epochs print_every : Z) (st : state) :
  match training_loop train_loader valid_loader epochs print_every st with
  | (Ok (tl, vl), st') => figures st' = figures st ++ [(tl, vl)]
  | (Raise _, st') => figures st' = figures st
  end.
Proof.
  unfold training_loop, bind.
  pose proof (preserves_for_each figures (py_range epochs)
                (epoch_body train_loader valid_loader print_every)
                (epoch_body_keeps_figures print_every) ([], []) st) as H.
  destruct (for_each _ _ _ st) as [[[tl vl]|err] st1]; cbn [snd] in H.
  - cbn [plot_losses ret figures]. now rewrite H.
  - exact H.
Qed.

(** *** The mode at the end *)

Lemma epoch_body_ends_in_eval print_every hist epoch st r st' :
  epoch_body train_loader valid_loader print_every hist epoch st
    = (Ok r, st') ->
  training st' = false.
Proof.
  destruct hist as [tl vl]. rewrite epoch_body_split. intros H.
  apply bind_ok_inv in H as (x & st1 & _ & H). unfold after_train in H.
  apply bind_ok_inv in H as (y & st2 & Hval & H).
  assert (Hm : training st2 = false).
  { pose proof (routines_leave_mode valid_loader st1) as (_ & Hv & _).
    now rewrite Hval in Hv. }
  apply bind_ok_inv in H as (m & st3 & Hmod & H).
  unfold lift in Hmod. inversion Hmod; subst st3. clear Hmod.
  apply bind_ok_inv in H as (u & st4 & Hrep & H).
  unfold ret in H. inversion H; subst. clear H.
  destruct (m =? print_every - 1).
  - apply bind_ok_inv in Hrep as (a & s1 & _ & Hrep).
    apply bind_ok_inv in Hrep as (a' & s2 & Hacc & Hrep).
    pose proof (routines_leave_mode valid_loader s1) as (_ & _ & Hg).
    rewrite Hacc in Hg. cbn [snd] in Hg.
    unfold print in Hrep. inversion Hrep; subst. exact Hg.
  - unfold ret in Hrep. inversion Hrep; subst. exact Hm.
Qed.

(** X8: After a loop of at least one epoch that returns, the model is in
    inference mode: the caller has to call [model.train()] before it
    trains further. *)
Theorem training_loop_ends_in_eval (epochs print_every : Z) (st : state) r :
  0 < epochs ->
  fst (training_loop train_loader valid_loader epochs print_every st) = Ok r ->
  training (snd (training_loop train_loader valid_loader epochs print_every st))
    = false.
Proof.
  intros He. unfold training_loop. rewrite (py_range_pos epochs He).
  generalize (map Z.of_nat (seq 1 (Z.to_nat epochs - 1))) as es.
  generalize (0 : Z) as e. generalize (@nil F, @nil F) as hist.
  intros hist e es. unfold bind at 1 3.
  assert (Hloop : forall es e hist st h st1,
             for_each (e :: es) hist
               (epoch_body train_loader valid_loader print_every) st
               = (Ok h, st1) -> training st1 = false).
  { clear. induction es as [|e' es IH]; intros e hist st h st1 H.
    - cbn [for_each] in H. apply bind_ok_inv in H as (h1 & s1 & Hb & H).
      unfold ret in H. inversion H; subst.
      eapply epoch_body_ends_in_eval; eauto.
    - change (for_each (e :: e' :: es) hist
                (epoch_body train_loader valid_loader print_every) st)
        with (bind (epoch_body train_loader valid_loader print_every hist e)
                (fun acc' => for_each (e' :: es) acc'
                   (epoch_body train_loader valid_loader print_every)) st)
        in H.
      apply bind_ok_inv in H as (h1 & s1 & _ & H). eapply IH; eauto. }
  destruct (for_each (e :: es) hist _ st) as [[[tl vl]|err] st1] eqn:E;
    cbn [fst snd]; [|discriminate].
  intros _. unfold bind, plot_losses, ret. cbn [snd training].
  eapply Hloop; eauto.
Qed.

End LoopEdges.

(** ** The sizes the model takes *)

Module LeNetSizes.
Import LeNet LeNetFacts.

Lemma half_bounds (a : nat) : (2 * (a / 2) <= a < 2 * (a / 2) + 2)%nat.
Proof.
  pose proof (Nat.div_mod_eq a 2).
  pose proof (Nat.mod_upper_bound a 2). lia.
Qed.

Lemma sequential_raise {L T} (apply : L -> T -> outcome T) l layers x e :
  apply l x = Raise e -> sequential apply (l :: layers) x = Raise e.
Proof. intros H. cbn [sequential]. now rewrite H. Qed.

Lemma map_outcome_head_raise {A C} (f : A -> outcome C) (x : A) (l : list A) e :
  f x = Raise e -> map_outcome f (x :: l) = Raise e.
Proof. intros H. cbn [map_outcome]. now rewrite H. Qed.

(** A convolution raises on a non-empty batch whose channels are not
    the ones it was built for, or whose images are smaller than its
    kernel. *)
Lemma apply4_conv_raises (l : Conv2d) (x : tensor4) (n c h w : nat) :
  shape4 x n c h w -> (0 < n)%nat -> (0 < c)%nat -> (0 < kernel_size l)%nat ->
  c <> in_channels l \/ (h < kernel_size l)%nat \/ (w < kernel_size l)%nat ->
  apply4 (Conv l) x = Raise RuntimeError.
Proof.
  intros [Hn Hx] Hpos Hc Hk Hbad.
  destruct x as [|s x]; [cbn in Hn; lia|].
  inversion Hx as [|? ? Hs _]; subst.
  apply map_outcome_head_raise. unfold conv2d.
  destruct (Nat.eqb_spec (length s) (in_channels l)) as [E|E]; cbn [negb];
    [|reflexivity].
  rewrite (shape3_height s c h w Hs Hc).
  destruct (Nat.ltb_spec h (kernel_size l)) as [|Hh]; [reflexivity|].
  rewrite (shape3_width s c h w Hs Hc) by lia.
  destruct (Nat.ltb_spec w (kernel_size l)) as [|Hw]; [reflexivity|].
  destruct Hs as [Hlen _]. lia.
Qed.

Lemma apply4_pool_raises (k : nat) (x : tensor4) (n c h w : nat) :
  shape4 x n c h w -> (0 < n)%nat -> (0 < c)%nat -> (0 < k)%nat ->
  (h < k)%nat \/ (w < k)%nat ->
  apply4 (AvgPool2d k) x = Raise RuntimeError.
Proof.
  intros [Hn Hx] Hpos Hc Hk Hbad.
  destruct x as [|s x]; [cbn in Hn; lia|].
  inversion Hx as [|? ? Hs _]; subst.
  apply map_outcome_head_raise. unfold avg_pool2d.
  rewrite (shape3_height s c h w Hs Hc).
  destruct (Nat.ltb_spec h k) as [|Hh]; [reflexivity|].
  rewrite (shape3_width s c h w Hs Hc) by lia.
  destruct (Nat.ltb_spec w k) as [|Hw]; [reflexivity|]. lia.
Qed.

Lemma apply2_linear_raises (l : Linear) (x : matrix) (n f : nat) :
  shape2 x n f -> (0 < n)%nat -> f <> in_features l ->
  apply2 (Lin l) x = Raise RuntimeError.
Proof.
  intros [Hn Hx] Hpos Hf.
  destruct x as [|v x]; [cbn in Hn; lia|].
  inversion Hx as [|? ? Hv _]; subst.
  apply map_outcome_head_raise. unfold linear.
  destruct (Nat.eqb_spec (length v) (in_features l)); [contradiction|].
  reflexivity.
Qed.

(** The classifier on a batch of 120 features. *)
Lemma classifier_run (k : nat) (w : weights) (v : matrix) (n : nat) :
  shape2 v n 120 ->
  exists logits,
    sequential apply2 (classifier (LeNet5_init k w)) v = Ok logits /\
    shape2 logits n k.
Proof.
  intros S9. cbn [classifier LeNet5_init].
  destruct (apply2_linear
              {| in_features := 120; out_features := 84;
                 lin_weight := fc1_w w; lin_bias := fc1_b w |}
              v n S9) as (v1 & L1 & T1).
  rewrite (sequential_step _ _ _ _ _ L1). clear L1.
  cbn [out_features] in T1.
  destruct (apply2_tanh v1 n 84 T1) as (v2 & L2 & T2).
  rewrite (sequential_step _ _ _ _ _ L2). clear L2.
  destruct (apply2_linear
              {| in_features := 84; out_features := k;
                 lin_weight := fc2_w w; lin_bias := fc2_b w |}
              v2 n T2) as (logits & L3 & T3).
  rewrite (sequential_step _ _ _ _ _ L3). clear L3.
  exists logits. split; [reflexivity | exact T3].
Qed.

Lemma last_side_one (h : nat) :
  (32 <= h)%nat -> (last_side h = 1%nat <-> (h <= 35)%nat).
Proof.
  intros Hh. unfold last_side.
  pose proof (half_bounds (h - 5 + 1)).
  pose proof (half_bounds ((h - 5 + 1) / 2 - 5 + 1)). lia.
Qed.

(** The feature extractor on images of at least 32x32. *)
Lemma features_run (k : nat) (w : weights) (x : tensor4) (n H W : nat) :
  shape4 x n 1 H W -> (32 <= H)%nat -> (32 <= W)%nat ->
  exists y,
    sequential apply4 (feature_extractor (LeNet5_init k w)) x = Ok y /\
    shape4 y n 120 (last_side H) (last_side W).
Proof.
  intros Hx HH HW. unfold last_side.
  pose proof (half_bounds (H - 5 + 1)) as B1.
  pose proof (half_bounds ((H - 5 + 1) / 2 - 5 + 1)) as B2.
  pose proof (half_bounds (W - 5 + 1)) as B3.
  pose proof (half_bounds ((W - 5 + 1) / 2 - 5 + 1)) as B4.
  cbn [feature_extractor LeNet5_init].
  destruct (apply4_conv
              {| in_channels := 1; out_channels := 6; kernel_size := 5;
                 conv_weight := conv1_w w; conv_bias := conv1_b w |}
              x n H W Hx) as (x1 & E1 & S1);
    cbn [in_channels kernel_size]; try lia.
  rewrite (sequential_step _ _ _ _ _ E1). clear E1.
  cbn [out_channels kernel_size] in S1.
  destruct (apply4_tanh x1 _ _ _ _ S1) as (x2 & E2 & S2).
  rewrite (sequential_step _ _ _ _ _ E2). clear E2.
  destruct (apply4_pool 2 x2 _ _ _ _ S2) as (x3 & E3 & S3); try lia.
  rewrite (sequential_step _ _ _ _ _ E3). clear E3.
  destruct (apply4_conv
              {| in_channels := 6; out_channels := 16; kernel_size := 5;
                 conv_weight := conv2_w w; conv_bias := conv2_b w |}
              x3 n _ _ S3) as (x4 & E4 & S4);
    cbn [in_channels kernel_size]; try lia.
  rewrite (sequential_step _ _ _ _ _ E4). clear E4.
  cbn [out_channels kernel_size] in S4.
  destruct (apply4_tanh x4 _ _ _ _ S4) as (x5 & E5 & S5).
  rewrite (sequential_step _ _ _ _ _ E5). clear E5.
  destruct (apply4_pool 2 x5 _ _ _ _ S5) as (x6 & E6 & S6); try lia.
  rewrite (sequential_step _ _ _ _ _ E6). clear E6.
  destruct (apply4_conv
              {| in_channels := 16; out_channels := 120; kernel_size := 5;
                 conv_weight := conv3_w w; conv_bias := conv3_b w |}
              x6 n _ _ S6) as (x7 & E7 & S7);
    cbn [in_channels kernel_size]; try lia.
  rewrite (sequential_step _ _ _ _ _ E7). clear E7.
  cbn [out_channels kernel_size] in S7.
  destruct (apply4_tanh x7 _ _ _ _ S7) as (x8 & E8 & S8).
  rewrite (sequential_step _ _ _ _ _ E8). clear E8.
  exists x8. split; [reflexivity | exact S8].
Qed.

(** The feature extractor raises on a non-empty batch of images with a
    side below 32: one of the convolutions or poolings gets an image
    smaller than its kernel. *)
Lemma features_raise (k : nat) (w : weights) (x : tensor4) (n H W : nat) :
  shape4 x n 1 H W -> (0 < n)%nat -> (H < 32)%nat \/ (W < 32)%nat ->
  sequential apply4 (feature_extractor (LeNet5_init k w)) x
    = Raise RuntimeError.
Proof.
  intros Hx Hn Hsmall.
  pose proof (half_bounds (H - 5 + 1)) as B1.
  pose proof (half_bounds ((H - 5 + 1) / 2 - 5 + 1)) as B2.
  pose proof (half_bounds (W - 5 + 1)) as B3.
  pose proof (half_bounds ((W - 5 + 1) / 2 - 5 + 1)) as B4.
  cbn [feature_extractor LeNet5_init].
  (* first convolution *)
  destruct (Nat.lt_ge_cases H 5) as [|G1];
    [apply sequential_raise;
     apply (apply4_conv_raises _ x n 1 H W); cbn [in_channels kernel_size];
     auto; lia|].
  destruct (Nat.lt_ge_cases W 5) as [|G2];
    [apply sequential_raise;
     apply (apply4_conv_raises _ x n 1 H W); cbn [in_channels kernel_size];
     auto; lia|].
  destruct (apply4_conv
              {| in_channels := 1; out_channels := 6; kernel_size := 5;
                 conv_weight := conv1_w w; conv_bias := conv1_b w |}
              x n H W Hx) as (x1 & E1 & S1);
    cbn [in_channels kernel_size]; try lia.
  rewrite (sequential_step _ _ _ _ _ E1). clear E1.
  cbn [out_channels kernel_size] in S1.
  destruct (apply4_tanh x1 _ _ _ _ S1) as (x2 & E2 & S2).
  rewrite (sequential_step _ _ _ _ _ E2). clear E2.
  (* first pooling *)
  destruct (Nat.lt_ge_cases (H - 5 + 1) 2) as [|G3];
    [apply sequential_raise;
     apply (apply4_pool_raises 2 x2 n 6 _ _ S2); auto; lia|].
  destruct (Nat.lt_ge_cases (W - 5 + 1) 2) as [|G4];
    [apply sequential_raise;
     apply (apply4_pool_raises 2 x2 n 6 _ _ S2); auto; lia|].
  destruct (apply4_pool 2 x2 _ _ _ _ S2) as (x3 & E3 & S3); try lia.
  rewrite (sequential_step _ _ _ _ _ E3). clear E3.
  (* second convolution *)
  destruct (Nat.lt_ge_cases ((H - 5 + 1) / 2) 5) as [|G5];
    [apply sequential_raise;
     apply (apply4_conv_raises _ x3 n 6 _ _ S3); cbn [in_channels kernel_size];
     auto; lia|].
  destruct (Nat.lt_ge_cases ((W - 5 + 1) / 2) 5) as [|G6];
    [apply sequential_raise;
     apply (apply4_conv_raises _ x3 n 6 _ _ S3); cbn [in_channels kernel_size];
     auto; lia|].
  destruct (apply4_conv
              {| in_channels := 6; out_channels := 16; kernel_size := 5;
                 conv_weight := conv2_w w; conv_bias := conv2_b w |}
              x3 n _ _ S3) as (x4 & E4 & S4);
    cbn [in_channels kernel_size]; try lia.
  rewrite (sequential_step _ _ _ _ _ E4). clear E4.
  cbn [out_channels kernel_size] in S4.
  destruct (apply4_tanh x4 _ _ _ _ S4) as (x5 & E5 & S5).
  rewrite (sequential_step _ _ _ _ _ E5). clear E5.
  (* second pooling *)
  destruct (Nat.lt_ge_cases ((H - 5 + 1) / 2 - 5 + 1) 2) as [|G7];
    [apply sequential_raise;
     apply (apply4_pool_raises 2 x5 n 16 _ _ S5); auto; lia|].
  destruct (Nat.lt_ge_cases ((W - 5 + 1) / 2 - 5 + 1) 2) as [|G8];
    [apply sequential_raise;
     apply (apply4_pool_raises 2 x5 n 16 _ _ S5); auto; lia|].
  destruct (apply4_pool 2 x5 _ _ _ _ S5) as (x6 & E6 & S6); try lia.
  rewrite (sequential_step _ _ _ _ _ E6). clear E6.
  (* third convolution: its input is smaller than 5x5 *)
  apply sequential_raise.
  apply (apply4_conv_raises _ x6 n 16 _ _ S6); cbn [in_channels kernel_size];
    auto; lia.
Qed.

Lemma apply4_conv_channels (l : Conv2d) (x : tensor4) (n c h w : nat) :
  shape4 x n c h w -> (0 < n)%nat -> c <> in_channels l ->
  apply4 (Conv l) x = Raise RuntimeError.
Proof.
  intros [Hn Hx] Hpos Hc.
  destruct x as [|s x]; [cbn in Hn; lia|].
  inversion Hx as [|? ? [Hlen _] _]; subst.
  apply map_outcome_head_raise. unfold conv2d.
  destruct (Nat.eqb_spec (length s) (in_channels l)); [contradiction|].
  reflexivity.
Qed.

Lemma blank_of_shape (side n : nat) :
  shape4 (repeat (blank_of side) n) n 1 side side.
Proof.
  split; [apply repeat_length|].
  apply Forall_forall. intros s Hs. apply repeat_spec in Hs. subst s.
  unfold blank_of. split; [reflexivity|].
  constructor; [|constructor]. split; [apply repeat_length|].
  apply Forall_forall. intros row Hrow. apply repeat_spec in Hrow.
  subst row. apply repeat_length.
Qed.

(** X9: The forward pass returns on every batch of one-channel images whose
    sides are between 32 and 35: the poolings round down, so that the
    last feature maps are 1x1 for all these sizes. *)
Theorem forward_accepts_sides_32_to_35
    (w : weights) (x : tensor4) (n H W : nat) :
  shape4 x n 1 H W -> (32 <= H <= 35)%nat -> (32 <= W <= 35)%nat ->
  exists logits probs,
    forward (LeNet5_init N_CLASSES w) x = Ok (logits, probs) /\
    shape2 logits n N_CLASSES /\ shape2 probs n N_CLASSES.
Proof.
  intros Hx [H1 H2] [W1 W2].
  destruct (features_run N_CLASSES w x n H W Hx H1 W1) as (y & Ey & Sy).
  rewrite (proj2 (last_side_one H H1) H2) in Sy.
  rewrite (proj2 (last_side_one W W1) W2) in Sy.
  pose proof (flatten_shape y n 120 1 1 Sy) as Sf.
  change (120 * 1 * 1)%nat with 120%nat in Sf.
  destruct (classifier_run N_CLASSES w (flatten y) n Sf) as (logits & El & Sl).
  exists logits, (softmax logits). unfold forward. rewrite Ey.
  cbv beta iota zeta. rewrite El.
  split; [reflexivity|]. split; [exact Sl | now apply softmax_shape].
Qed.

(** X10: On a non-empty batch the forward pass raises for every other input:
    a number of channels other than 1 or a side below 32 stops a
    convolution or a pooling, and a side above 35 leaves more than 120
    features, which the first linear layer does not take. *)
Theorem forward_rejects_other_shapes
    (w : weights) (x : tensor4) (n c H W : nat) :
  shape4 x n c H W -> (0 < n)%nat ->
  c <> 1%nat \/ ~ (32 <= H <= 35)%nat \/ ~ (32 <= W <= 35)%nat ->
  forward (LeNet5_init N_CLASSES w) x = Raise RuntimeError.
Proof.
  intros Hx Hn Hbad. unfold forward.
  destruct (Nat.eq_dec c 1) as [->|Hc].
  - destruct (Nat.lt_ge_cases H 32) as [|H1];
      [rewrite (features_raise N_CLASSES w x n H W Hx Hn); auto|].
    destruct (Nat.lt_ge_cases W 32) as [|W1];
      [rewrite (features_raise N_CLASSES w x n H W Hx Hn); auto|].
    destruct (features_run N_CLASSES w x n H W Hx H1 W1) as (y & Ey & Sy).
    rewrite Ey. cbv beta iota zeta.
    pose proof (flatten_shape y n 120 _ _ Sy) as Sf.
    cbn [classifier LeNet5_init].
    rewrite (sequential_raise apply2 _ _ (flatten y) RuntimeError);
      [reflexivity|].
    apply (apply2_linear_raises _ (flatten y) n _ Sf Hn).
    cbn [in_features].
    pose proof (last_side_one H H1) as LH.
    pose proof (last_side_one W W1) as LW.
    assert (1 <= last_side H)%nat by (unfold last_side; lia).
    assert (1 <= last_side W)%nat by (unfold last_side; lia).
    assert (last_side H <> 1 \/ last_side W <> 1)%nat by lia.
    nia.
  - cbn [feature_extractor LeNet5_init].
    rewrite (sequential_raise apply4 _ _ x RuntimeError); [reflexivity|].
    now apply (apply4_conv_channels _ x n c H W).
Qed.

End LeNetSizes.

Lemma forward_accepts_sides_32_to_35_witness :
  LeNet.shape4 (repeat (LeNet.blank_of 33) 2) 2 1 33 33 /\
  exists logits probs,
    LeNet.forward (LeNet.LeNet5_init N_CLASSES LeNet.zero_weights)
      (repeat (LeNet.blank_of 33) 2) = Ok (logits, probs) /\
    LeNet.shape2 logits 2 N_CLASSES.
Proof.
  split; [apply LeNetSizes.blank_of_shape|].
  destruct (LeNetSizes.forward_accepts_sides_32_to_35 LeNet.zero_weights
              (repeat (LeNet.blank_of 33) 2) 2 33 33
              (LeNetSizes.blank_of_shape 33 2))
    as (logits & probs & H1 & H2 & _); [lia | lia |].
  exists logits, probs. split; assumption.
Defined.

Lemma forward_rejects_other_shapes_witness :
  LeNet.shape4 (repeat (LeNet.blank_of 28) 1) 1 1 28 28 /\
  LeNet.forward (LeNet.LeNet5_init N_CLASSES LeNet.zero_weights)
    (repeat (LeNet.blank_of 28) 1) = Raise RuntimeError.
Proof.
  split; [apply LeNetSizes.blank_of_shape|].
  apply (LeNetSizes.forward_rejects_other_shapes LeNet.zero_weights
           (repeat (LeNet.blank_of 28) 1) 1 1 28 28);
    [apply LeNetSizes.blank_of_shape | lia | right; left; lia].
Defined.

(** ** Batches do not interact *)

Module LeNetBatches.
Import LeNet LeNetFacts.

Lemma map_outcome_app {A C} (f : A -> outcome C) (x1 x2 : list A) y1 y2 :
  map_outcome f x1 = Ok y1 -> map_outcome f x2 = Ok y2 ->
  map_outcome f (x1 ++ x2) = Ok (y1 ++ y2).
Proof.
  revert y1. induction x1 as [|a x1 IH]; intros y1 H1 H2.
  - cbn in H1. inversion H1; subst. exact H2.
  - cbn [map_outcome app] in *.
    destruct (f a) as [b|e]; [|discriminate].
    destruct (map_outcome f x1) as [ys|e]; [|discriminate].
    inversion H1; subst. now rewrite (IH ys eq_refl H2).
Qed.

Lemma apply4_app (l : layer4) (x1 x2 y1 y2 : tensor4) :
  apply4 l x1 = Ok y1 -> apply4 l x2 = Ok y2 ->
  apply4 l (x1 ++ x2) = Ok (y1 ++ y2).
Proof.
  destruct l as [c| |k]; cbn [apply4].
  - apply map_outcome_app.
  - intros H1 H2. inversion H1; inversion H2; subst. now rewrite map_app.
  - apply map_outcome_app.
Qed.

Lemma apply2_app (l : layer2) (x1 x2 y1 y2 : matrix) :
  apply2 l x1 = Ok y1 -> apply2 l x2 = Ok y2 ->
  apply2 l (x1 ++ x2) = Ok (y1 ++ y2).
Proof.
  destruct l as [c|]; cbn [apply2].
  - apply map_outcome_app.
  - intros H1 H2. inversion H1; inversion H2; subst. now rewrite map_app.
Qed.

Lemma sequential_app {L T} (apply : L -> list T -> outcome (list T))
    (layers : list L) :
  (forall l x1 x2 y1 y2,
      apply l x1 = Ok y1 -> apply l x2 = Ok y2 ->
      apply l (x1 ++ x2) = Ok (y1 ++ y2)) ->
  forall x1 x2 y1 y2,
    sequential apply layers x1 = Ok y1 ->
    sequential apply layers x2 = Ok y2 ->
    sequential apply layers (x1 ++ x2) = Ok (y1 ++ y2).
Proof.
  intros Happ. induction layers as [|l layers IH]; intros x1 x2 y1 y2 H1 H2.
  - cbn in *. inversion H1; inversion H2; subst. reflexivity.
  - cbn [sequential] in *.
    destruct (apply l x1) as [z1|e] eqn:E1; [|discriminate].
    destruct (apply l x2) as [z2|e] eqn:E2; [|discriminate].
    rewrite (Happ l x1 x2 z1 z2 E1 E2). now apply IH.
Qed.

(** X11: The forward pass of a batch made of two batches is made of their
    forward passes: the rows of one sample do not depend on the samples
    it is batched with. *)
Theorem forward_of_joined_batches
    (self : LeNet5) (x1 x2 : tensor4) (l1 l2 p1 p2 : matrix) :
  forward self x1 = Ok (l1, p1) ->
  forward self x2 = Ok (l2, p2) ->
  forward self (x1 ++ x2) = Ok (l1 ++ l2, p1 ++ p2).
Proof.
  unfold forward. intros H1 H2.
  destruct (sequential apply4 (feature_extractor self) x1) as [f1|e] eqn:F1;
    [|discriminate].
  destruct (sequential apply4 (feature_extractor self) x2) as [f2|e] eqn:F2;
    [|discriminate].
  cbv beta iota zeta in H1, H2.
  destruct (sequential apply2 (classifier self) (flatten f1)) as [c1|e] eqn:C1;
    [|discriminate].
  destruct (sequential apply2 (classifier self) (flatten f2)) as [c2|e] eqn:C2;
    [|discriminate].
  inversion H1; inversion H2; subst. clear H1 H2.
  assert (E4 : sequential apply4 (feature_extractor self) (x1 ++ x2)
               = Ok (f1 ++ f2))
    by exact (sequential_app apply4 _ apply4_app x1 x2 f1 f2 F1 F2).
  rewrite E4. cbv beta iota zeta.
  assert (E2 : sequential apply2 (classifier self) (flatten (f1 ++ f2))
               = Ok (l1 ++ l2)).
  { unfold flatten in *. rewrite map_app.
    exact (sequential_app apply2 _ apply2_app _ _ l1 l2 C1 C2). }
  rewrite E2. unfold softmax. now rewrite map_app.
Qed.

End LeNetBatches.

(** ** The script's model in the routines *)

Section LeNetDataset.
Variables gradient optimizer_state generator : Type.
Variable loss_fn : LeNet.matrix -> list Z -> outcome R.
Variable autograd : bool -> LeNet.weights -> LeNet.tensor4 -> list Z -> gradient.
Variable accumulate : gradient -> gradient -> gradient.
Variable step :
  optimizer_state -> LeNet.weights -> gradient -> LeNet.weights * optimizer_state.
Variable draw : generator -> nat -> nat * generator.
Variable seed_draw : generator -> Z * generator.
Variable seeded : Z -> generator.

Local Abbreviation LB :=
  (lenet_backend gradient optimizer_state generator loss_fn autograd
     accumulate step draw seed_draw seeded).

(** The rows of a batch are the rows of its samples taken one by one. *)
Lemma lenet_rows (w : LeNet.weights) (xs : LeNet.tensor4) :
  Forall (fun x => LeNet.shape3 x 1 32 32) xs ->
  LeNet.forward (LeNet.LeNet5_init N_CLASSES w) xs =
  Ok (map (LeNet.sample_logits (LeNet.LeNet5_init N_CLASSES w)) xs,
      map (fun x => LeNet.softmax_row
                      (LeNet.sample_logits (LeNet.LeNet5_init N_CLASSES w) x))
          xs).
Proof.
  induction 1 as [|x xs Hx _ IH].
  - destruct (LeNetFacts.forward_run N_CLASSES w [] 0) as (l & Hf & [Hl _]).
    { split; [reflexivity | constructor]. }
    destruct l; [exact Hf | discriminate].
  - destruct (LeNetFacts.forward_run N_CLASSES w [x] 1) as (l & Hf & [Hl _]).
    { split; [reflexivity | now constructor]. }
    destruct l as [|r [|r' l]]; try discriminate.
    assert (Hr : LeNet.sample_logits (LeNet.LeNet5_init N_CLASSES w) x = r).
    { unfold LeNet.sample_logits. now rewrite Hf. }
    change (x :: xs) with ([x] ++ xs).
    rewrite (LeNetBatches.forward_of_joined_batches _ _ _ _ _ _ _ Hf IH).
    cbn [app map LeNet.softmax]. now rewrite Hr.
Qed.

Lemma filter_combine_map (f : LeNet.tensor3 -> Z)
    (c : list (LeNet.tensor3 * Z)) :
  filter (fun py => fst py =? snd py)
         (combine (map f (map fst c)) (map snd c)) =
  map (fun s => (f (fst s), snd s))
      (filter (fun s => f (fst s) =? snd s) c).
Proof.
  induction c as [|[x y] c IH]; [reflexivity|].
  cbn [map combine filter fst snd].
  destruct (f x =? y); cbn [map fst snd]; now rewrite IH.
Qed.

Lemma filter_length_perm {A} (f : A -> bool) (l l' : list A) :
  Permutation l l' -> length (filter f l) = length (filter f l').
Proof.
  induction 1 as [|a l l' _ IH|a b l|l l' l'' _ IH1 _ IH2];
    cbn [filter]; try reflexivity.
  - destruct (f a); cbn [length]; now rewrite IH.
  - destruct (f a), (f b); reflexivity.
  - congruence.
Qed.

(** The class the model predicts for an image on its own. *)
Local Abbreviation class_of w x :=
  (predicted_class (B := LB)
     (LeNet.softmax_row
        (LeNet.sample_logits (LeNet.LeNet5_init N_CLASSES w) x))).

Lemma lenet_hits (w : LeNet.weights) (c : list (LeNet.tensor3 * Z)) :
  Forall (fun s => LeNet.shape3 (fst s) 1 32 32) c ->
  hits (B := LB) w (collate (B := LB) c) =
  length (filter (fun s => class_of w (fst s) =? snd s) c).
Proof.
  intros Hc. unfold hits, predictions, probs_of, collate. cbn [X y_true].
  change (forward (Backend := LB) false w (map fst c))
    with (LeNet.forward (LeNet.LeNet5_init N_CLASSES w) (map fst c)).
  rewrite lenet_rows.
  - rewrite map_map.
    etransitivity;
      [apply (f_equal (@length (Z * Z)));
       exact (filter_combine_map (fun x => class_of w x) c)|].
    now rewrite length_map.
  - apply Forall_map. exact Hc.
Qed.

Lemma lenet_correct_samples (w : LeNet.weights)
    (cs : list (list (LeNet.tensor3 * Z))) :
  Forall (fun s => LeNet.shape3 (fst s) 1 32 32) (concat cs) ->
  correct_samples (B := LB) w (map (collate (B := LB)) cs) =
  length (filter (fun s => class_of w (fst s) =? snd s) (concat cs)).
Proof.
  unfold correct_samples.
  induction cs as [|c cs IH]; intros H; [reflexivity|].
  cbn [concat] in H. apply Forall_app in H as [Hc Hcs].
  cbn [map fold_right concat].
  rewrite filter_app, length_app, <- (IH Hcs). f_equal.
  now apply lenet_hits.
Qed.

(** X12: For the script's model the accuracy does not depend on how the
    loader batches or orders the samples: it is the share of the samples
    of the dataset whose own predicted class is their label. *)
Theorem lenet_accuracy_ignores_batching
    (ld : DataLoader (B := LB)) (st : state (B := LB)) :
  Forall (fun s => LeNet.shape3 (fst s) 1 32 32) (dataset ld) ->
  dataset ld <> [] ->
  fst (get_accuracy ld st) =
  Ok (fraction
        (length (filter (fun s => class_of (params st) (fst s) =? snd s)
                        (dataset ld)))
        (length (dataset ld))).
Proof.
  intros Hd Hne.
  rewrite get_accuracy_run by (auto using lenet_contract).
  cbn [fst]. do 2 f_equal. unfold batches_of.
  pose proof (sampled_perm ld (rng st)) as Hp.
  rewrite lenet_correct_samples.
  - rewrite chunks_concat. now apply filter_length_perm.
  - rewrite chunks_concat.
    apply Forall_forall. intros s Hs. rewrite Forall_forall in Hd.
    apply Hd. now apply (Permutation_in _ Hp).
Qed.

(** The script's model and a loss function that keeps its contract
    answer on every batch of a loader of 32x32 one-channel images
    labelled with classes. *)
Lemma lenet_serves (ld : DataLoader (B := LB)) :
  loss_contract loss_fn ->
  Forall (fun s => LeNet.shape3 (fst s) 1 32 32) (dataset ld) ->
  labelled_with_classes (dataset ld) ->
  serves_accepted ld.
Proof.
  intros Hloss Hd Hy g b Hb mode w.
  destruct (lenet_contract _ _ _ _ _ _ _ _ _ _ _ Hd mode w (X b)
              (batches_of_incl ld g b Hb))
    as (logits & probs & Hf & Hn & _ & Hrows & _).
  destruct (batches_of_shape ld g b Hb) as [Hne Hlen].
  destruct (Hloss logits (y_true b)) as [loss Hl].
  - intros E. rewrite E in Hlen. destruct (X b); [now apply Hne | discriminate].
  - split; [now rewrite Hlen | exact Hrows].
  - apply Forall_forall. intros y Hin.
    apply (batches_of_labels ld g b Hb) in Hin.
    apply in_map_iff in Hin as (s & <- & Hs).
    unfold labelled_with_classes in Hy. rewrite Forall_forall in Hy.
    exact (Hy s Hs).
  - exists logits, probs, loss. split; [exact Hf | exact Hl].
Qed.

(** X13: With the script's model, a loss function that returns on every
    batch of class labels, datasets of 32x32 one-channel images that are
    not empty and whose labels are classes, and an interval other than
    0, the training loop runs to its end for any number of epochs and
    returns histories of that length. *)
Theorem lenet_training_loop_returns
    (train_loader valid_loader : DataLoader (B := LB))
    (N : nat) (print_every : Z) (st : state (B := LB)) :
  loss_contract loss_fn ->
  Forall (fun s => LeNet.shape3 (fst s) 1 32 32) (dataset train_loader) ->
  Forall (fun s => LeNet.shape3 (fst s) 1 32 32) (dataset valid_loader) ->
  labelled_with_classes (dataset train_loader) ->
  labelled_with_classes (dataset valid_loader) ->
  dataset train_loader <> [] -> dataset valid_loader <> [] ->
  print_every <> 0 ->
  exists tl vl st',
    training_loop train_loader valid_loader (Z.of_nat N) print_every st
      = (Ok (tl, vl), st') /\
    length tl = N /\ length vl = N.
Proof.
  intros Hloss Ht Hv Hyt Hyv Hnt Hnv Hk.
  destruct (training_loop_returns train_loader valid_loader print_every
              Hnt Hnv (lenet_contract _ _ _ _ _ _ _ _ _ _ _ Ht)
              (lenet_contract _ _ _ _ _ _ _ _ _ _ _ Hv)
              (lenet_serves _ Hloss Ht Hyt) (lenet_serves _ Hloss Hv Hyv)
              Hk (Z.of_nat N) st)
    as (tl & vl & st' & Hrun).
  exists tl, vl, st'. split; [exact Hrun|].
  unfold training_loop in Hrun.
  apply bind_ok_inv in Hrun as ([tl' vl'] & st1 & Hloop & Hrest).
  apply bind_ok_inv in Hrest as (u & st2 & _ & Hret).
  unfold ret in Hret. inversion Hret; subst.
  apply loop_lengths in Hloop. rewrite length_py_range in Hloop.
  exact Hloop.
Qed.

End LeNetDataset.

(** ** What the routines read *)

Section RoutineReads.
Context {B : Backend}.

Lemma train_body_reads (rl : F) (b : batch) (s1 s2 : state) :
  params s1 = params s2 -> opt s1 = opt s2 -> training s1 = training s2 ->
  fst (train_body rl b s1) = fst (train_body rl b s2) /\
  params (snd (train_body rl b s1)) = params (snd (train_body rl b s2)) /\
  opt (snd (train_body rl b s1)) = opt (snd (train_body rl b s2)) /\
  training (snd (train_body rl b s1)) = training (snd (train_body rl b s2)).
Proof.
  intros Hp Ho Hm.
  unfold train_body, bind, lift, optimizer_zero_grad, model_call,
    loss_backward, optimizer_step, ret.
  cbn [training params grads opt rng stdout figures fst snd].
  rewrite Hp, Ho, Hm.
  destruct (forward (training s2) (params s2) (X b)) as [out|e];
    cbn [fst snd params opt training grads]; [|auto].
  destruct (criterion (fst out) (y_true b)) as [loss|e];
    cbn [fst snd params opt training grads]; [|auto].
  destruct (opt_step (opt s2) (params s2)
              (backward (training s2) (params s2) (X b) (y_true b)));
    cbn [fst snd params opt training]; auto.
Qed.

Lemma train_loop_reads (bs : list batch) (rl : F) (s1 s2 : state) :
  params s1 = params s2 -> opt s1 = opt s2 -> training s1 = training s2 ->
  fst (for_each bs rl train_body s1) = fst (for_each bs rl train_body s2) /\
  params (snd (for_each bs rl train_body s1))
    = params (snd (for_each bs rl train_body s2)) /\
  opt (snd (for_each bs rl train_body s1))
    = opt (snd (for_each bs rl train_body s2)).
Proof.
  revert rl s1 s2. induction bs as [|b bs IH]; intros rl s1 s2 Hp Ho Hm.
  - cbn. auto.
  - cbn [for_each]. unfold bind.
    destruct (train_body_reads rl b s1 s2 Hp Ho Hm) as (Hr & Hp' & Ho' & Hm').
    destruct (train_body rl b s1) as [[a1|e1] t1];
      destruct (train_body rl b s2) as [[a2|e2] t2];
      cbn [fst snd] in *; try discriminate.
    + inversion Hr; subst. now apply IH.
    + auto.
Qed.

Lemma train_unfold (ld : DataLoader) (st : state) :
  train ld st =
  bind (for_each (batches_of ld (rng st)) (F_of_Z 0) train_body)
       (fun rl => lift (py_truediv rl (len (dataset ld))))
       (entered true ld st).
Proof. reflexivity. Qed.

Lemma validate_unfold (ld : DataLoader) (st : state) :
  validate ld st =
  bind (for_each (batches_of ld (rng st)) (F_of_Z 0) validate_body)
       (fun rl => lift (py_truediv rl (len (dataset ld))))
       (entered false ld st).
Proof. reflexivity. Qed.

(** X14: The loss [train] returns and the parameters and optimizer state it
    leaves depend on the state it starts from only through the
    parameters, the optimizer state and the generator: gradients left by
    earlier calls are cleared before they are used, and the mode is set
    at entry. *)
Theorem train_reads_parameters_optimizer_generator
    (ld : DataLoader) (s1 s2 : state) :
  params s1 = params s2 -> opt s1 = opt s2 -> rng s1 = rng s2 ->
  fst (train ld s1) = fst (train ld s2) /\
  params (snd (train ld s1)) = params (snd (train ld s2)) /\
  opt (snd (train ld s1)) = opt (snd (train ld s2)).
Proof.
  intros Hp Ho Hg. rewrite !train_unfold, Hg.
  destruct (train_loop_reads (batches_of ld (rng s2)) (F_of_Z 0)
              (entered true ld s1) (entered true ld s2))
    as (Hr & Hp' & Ho'); try assumption; try reflexivity.
  unfold bind.
  destruct (for_each _ _ train_body (entered true ld s1)) as [[a1|e1] u1];
    destruct (for_each _ _ train_body (entered true ld s2)) as [[a2|e2] u2];
    cbn [fst snd] in *; try discriminate.
  - inversion Hr; subst. unfold lift. cbn [fst snd]. auto.
  - auto.
Qed.

Lemma validate_loop_reads (bs : list batch) (rl : F) (s1 s2 : state) :
  params s1 = params s2 -> training s1 = training s2 ->
  fst (for_each bs rl validate_body s1)
    = fst (for_each bs rl validate_body s2).
Proof.
  intros Hp Hm. revert rl. induction bs as [|b bs IH]; intros rl.
  - reflexivity.
  - cbn [for_each].
    unfold bind, validate_body at 1 3, bind, lift, model_call, ret.
    rewrite Hp, Hm.
    destruct (forward (training s2) (params s2) (X b)) as [out|e];
      [|reflexivity].
    destruct (criterion (fst out) (y_true b)) as [loss|e];
      [apply IH | reflexivity].
Qed.

(** X15: The loss [validate] returns depends on the state only through the
    parameters, and through the generator when the loader shuffles: it
    is the same whatever the mode, the gradients and the optimizer state
    the model was left with. *)
Theorem validate_reads_parameters (ld : DataLoader) (s1 s2 : state) :
  params s1 = params s2 ->
  shuffle ld = false \/ rng s1 = rng s2 ->
  fst (validate ld s1) = fst (validate ld s2).
Proof.
  intros Hp Hg.
  assert (Hb : batches_of ld (rng s1) = batches_of ld (rng s2)).
  { destruct Hg as [Hs | ->]; [|reflexivity].
    unfold batches_of. now rewrite !sampled_unshuffled. }
  rewrite !validate_unfold, Hb. unfold bind.
  pose proof (validate_loop_reads (batches_of ld (rng s2)) (F_of_Z 0)
                (entered false ld s1) (entered false ld s2) Hp eq_refl) as Hr.
  destruct (for_each _ _ validate_body (entered false ld s1)) as [[a1|e1] u1];
    destruct (for_each _ _ validate_body (entered false ld s2)) as [[a2|e2] u2];
    cbn [fst snd] in *; try discriminate.
  - inversion Hr; subst. reflexivity.
  - exact Hr.
Qed.

End RoutineReads.

(** ** Instances of the properties above *)

Lemma training_loop_without_epochs_witness :
  -2 <= 0 /\
  fst (training_loop (Demo.loader true) (Demo.loader false) (-2) 1 Demo.start)
    = Ok ([], []).
Proof.
  split; [lia|].
  rewrite (training_loop_without_epochs (Demo.loader true) (Demo.loader false)
             (-2) 1 Demo.start); [reflexivity | lia].
Defined.

Lemma training_loop_zero_interval_witness :
  0 < 3 /\
  fst (training_loop (Demo.loader true) (Demo.loader false) 3 0 Demo.start)
    = Raise ZeroDivisionError.
Proof.
  split; [lia|].
  destruct (training_loop_zero_interval (Demo.loader true) (Demo.loader false)
              3 Demo.start (1 # 2)%Q 1%Q) as [H _];
    [lia | reflexivity | reflexivity |].
  rewrite H. reflexivity.
Defined.

Lemma training_loop_negative_interval_witness :
  -1 < 0 /\
  stdout (snd (training_loop (Demo.loader true) (Demo.loader false)
                 (Z.of_nat 3) (-1) Demo.start)) = [].
Proof.
  split; [lia|].
  rewrite (training_loop_negative_interval (Demo.loader true)
             (Demo.loader false) 3 (-1) Demo.start); [reflexivity | lia].
Defined.

Lemma training_loop_ends_in_eval_witness :
  0 < 2 /\
  training (snd (training_loop (Demo.loader true) (Demo.loader false)
                   2 2 Demo.start)) = false.
Proof.
  split; [lia|].
  apply (training_loop_ends_in_eval (Demo.loader true) (Demo.loader false)
           2 2 Demo.start ([(1 # 2)%Q; 1%Q], [1%Q; 1%Q]));
    [lia | vm_compute; reflexivity].
Defined.

Lemma forward_of_joined_batches_witness :
  exists l1 l2,
    LeNet.forward (LeNet.LeNet5_init N_CLASSES LeNet.zero_weights)
      (repeat LeNet.blank 1 ++ repeat LeNet.blank 2)
    = Ok (l1 ++ l2, LeNet.softmax l1 ++ LeNet.softmax l2).
Proof.
  destruct (LeNetFacts.forward_run N_CLASSES LeNet.zero_weights
              (repeat LeNet.blank 1) 1 (LeNetFacts.blank_batch_shape 1))
    as (l1 & H1 & _).
  destruct (LeNetFacts.forward_run N_CLASSES LeNet.zero_weights
              (repeat LeNet.blank 2) 2 (LeNetFacts.blank_batch_shape 2))
    as (l2 & H2 & _).
  exists l1, l2.
  exact (LeNetBatches.forward_of_joined_batches _ _ _ _ _ _ _ H1 H2).
Defined.

Lemma blank_loader_images (bs : positive) (sh : bool) :
  Forall (fun s => LeNet.shape3 (fst s) 1 32 32) (dataset (blank_loader bs sh)).
Proof.
  assert (H : LeNet.shape3 LeNet.blank 1 32 32).
  { destruct (LeNetFacts.blank_batch_shape 1) as [_ H].
    now inversion H. }
  repeat constructor; exact H.
Qed.

Lemma blank_loader_labels (bs : positive) (sh : bool) :
  labelled_with_classes (dataset (blank_loader bs sh)).
Proof. repeat constructor; cbn; lia. Qed.

Lemma lenet_accuracy_ignores_batching_witness :
  fst (get_accuracy (blank_loader 1 true) blank_start)
  = fst (get_accuracy (blank_loader 32 false) blank_start).
Proof.
  pose proof (lenet_accuracy_ignores_batching unit unit unit
                (fun _ _ => Ok 0%R) (fun _ _ _ _ => tt) (fun _ _ => tt)
                (fun o w _ => (w, o)) (fun g _ => (0%nat, g))
                (fun g => (0, g)) (fun _ => tt)
                (blank_loader 1 true) blank_start
                (blank_loader_images _ _)) as E1.
  pose proof (lenet_accuracy_ignores_batching unit unit unit
                (fun _ _ => Ok 0%R) (fun _ _ _ _ => tt) (fun _ _ => tt)
                (fun o w _ => (w, o)) (fun g _ => (0%nat, g))
                (fun g => (0, g)) (fun _ => tt)
                (blank_loader 32 false) blank_start
                (blank_loader_images _ _)) as E2.
  exact (eq_trans (E1 ltac:(discriminate))
           (eq_sym (E2 ltac:(discriminate)))).
Defined.

Lemma lenet_training_loop_returns_witness :
  exists tl vl st',
    training_loop (blank_loader 1 true) (blank_loader 32 false)
      (Z.of_nat 3) 1 blank_start = (Ok (tl, vl), st') /\
    length tl = 3%nat /\ length vl = 3%nat.
Proof.
  apply (lenet_training_loop_returns unit unit unit
           (fun _ _ => Ok 0%R) (fun _ _ _ _ => tt) (fun _ _ => tt)
           (fun o w _ => (w, o)) (fun g _ => (0%nat, g))
           (fun g => (0, g)) (fun _ => tt)
           (blank_loader 1 true) (blank_loader 32 false) 3 1 blank_start);
    try apply blank_loader_images; try apply blank_loader_labels;
    try discriminate.
  intros logits ys _ _ _. now exists 0%R.
Defined.

Lemma train_reads_parameters_optimizer_generator_witness :
  grads Demo.start <> grads Demo.stale /\
  fst (train (Demo.loader true) Demo.start)
  = fst (train (Demo.loader true) Demo.stale).
Proof.
  split; [discriminate|].
  apply (train_reads_parameters_optimizer_generator (Demo.loader true)
           Demo.start Demo.stale); reflexivity.
Defined.

Lemma validate_reads_parameters_witness :
  fst (validate (Demo.loader false) Demo.start)
  = fst (validate (Demo.loader false) Demo.stale).
Proof.
  apply (validate_reads_parameters (Demo.loader false) Demo.start Demo.stale);
    [reflexivity | left; reflexivity].
Defined.
